(** * Code-quality examples: a verified model of [main.py]

    The file [assets/conteudo/code-quality/main.py] is a sequence of paired
    "low-quality" / "higher-quality" Python snippets.  Each snippet is
    embedded below as a Rocq definition that follows the Python text line by
    line; the theorems at the end state what the snippets compute.

    Modelling conventions:
    - a Python [int] is an unbounded integer, [Z];
    - a Python [float] is an IEEE-754 binary64 value, [spec_float] with
      precision 53 and maximal exponent 1024;
    - a Python [str] is the [string] of its UTF-8 bytes;
    - a raised exception is a value of [exn], never a stuck term;
    - the module-level dictionary [cache] is a [gmap Z Z] threaded through
      the calls that read or write it, and console output is a list of
      printed lines;
    - recursion is bounded by a fuel argument; running out of fuel stands
      for a computation that does not return. *)

From Stdlib Require Import ZArith List String Ascii Bool Lia.
From Stdlib Require Import SpecFloat.
From stdpp Require Import gmap.

Local Open Scope Z_scope.

(** ** Exceptions and outcomes *)

Inductive exn : Type :=
| TypeError
| ValueError
| ZeroDivisionError
| OverflowError
| KeyError
| AssertionError
| MemoryError.

Inductive outcome (A : Type) : Type :=
| Returns (a : A)
| Raises (e : exn).

Arguments Returns {A} a.
Arguments Raises {A} e.

(** Sequencing: an exception raised by the first step is the outcome. *)
Definition and_then {A B} (m : outcome A) (k : A -> outcome B) : outcome B :=
  match m with
  | Returns a => k a
  | Raises e => Raises e
  end.

Notation "'try!' x := m 'in' k" := (and_then m (fun x => k))
  (at level 10, x name, m at level 100, k at level 200).

(** ** Values

    The objects the snippets pass around: integers, floats, strings, [None]
    and lists of integers. *)

Abbreviation float := spec_float.

Inductive value : Type :=
| VInt (z : Z)
| VFloat (f : float)
| VStr (s : string)
| VNone
| VList (l : list Z).

(** ** The Python operations the snippets use *)

Module Builtins.

(** *** binary64 arithmetic

    All NaNs are one value here, [S754_nan].  The sign bit and the payload
    of a NaN that an operation returns are not fixed by Python (they are the
    processor's), so they are outside the model, and no statement below
    compares two results that are NaN. *)

Definition prec : Z := 53.
Definition emax : Z := 1024.

Definition fadd : float -> float -> float := SFadd prec emax.
Definition fmul : float -> float -> float := SFmul prec emax.
Definition fdiv : float -> float -> float := SFdiv prec emax.

(** [x == 0.0] on floats: both signed zeros, and nothing else. *)
Definition fzero (x : float) : bool :=
  match x with
  | S754_zero _ => true
  | _ => false
  end.

(** A rounded result that left the finite range. *)
Definition overflowed (x : float) : bool :=
  match x with
  | S754_infinity _ => true
  | _ => false
  end.

(** The integer [z] as a (possibly unnormalised) float, exactly. *)
Definition exact (z : Z) : float :=
  match z with
  | Z0 => S754_zero false
  | Zpos p => S754_finite false p 0
  | Zneg p => S754_finite true p 0
  end.

(** Conversion of an [int] to [float]: round to nearest even;
    [OverflowError] when the integer is too large for a float. *)
Definition float_of_int (z : Z) : outcome float :=
  let x := binary_normalize prec emax z 0 false in
  if overflowed x then Raises OverflowError else Returns x.

(** [a / b] on two [int]s with [b <> 0]: the correctly rounded quotient;
    [OverflowError] when it is too large for a float.  The sign of a zero
    result is the exclusive or of the operands' signs. *)
Definition int_truediv (a b : Z) : outcome float :=
  let q :=
    match a with
    | Z0 => S754_zero (b <? 0)
    | _ => fdiv (exact a) (exact b)
    end in
  if overflowed q then Raises OverflowError else Returns q.

(** *** Strings to floats *)

Definition is_space (c : ascii) : bool :=
  let n := N_of_ascii c in
  ((n =? 32) || ((9 <=? n) && (n <=? 13)))%N.

Definition is_digit (c : ascii) : bool :=
  let n := N_of_ascii c in
  ((48 <=? n) && (n <=? 57))%N.

Definition digit_value (c : ascii) : Z := Z.of_N (N_of_ascii c) - 48.

Definition lower (c : ascii) : ascii :=
  let n := N_of_ascii c in
  if ((65 <=? n) && (n <=? 90))%N then ascii_of_N (n + 32) else c.

Fixpoint lstrip (s : list ascii) : list ascii :=
  match s with
  | c :: r => if is_space c then lstrip r else s
  | [] => []
  end.

(** [s.strip()] *)
Definition strip (s : list ascii) : list ascii :=
  rev (lstrip (rev (lstrip s))).

(** Underscores may only stand between two digits; they are dropped.
    [prev] is the character read last, [None] at the start. *)
Fixpoint drop_underscores (prev : option ascii) (s : list ascii)
  : option (list ascii) :=
  match s with
  | [] =>
      match prev with
      | Some "_"%char => None
      | _ => Some []
      end
  | c :: r =>
      if Ascii.eqb c "_" then
        match prev with
        | Some p =>
            if is_digit p then drop_underscores (Some c) r else None
        | None => None
        end
      else
        match prev with
        | Some "_"%char =>
            if is_digit c
            then option_map (cons c) (drop_underscores (Some c) r)
            else None
        | _ => option_map (cons c) (drop_underscores (Some c) r)
        end
  end.

Fixpoint span_digits (s : list ascii) : list ascii * list ascii :=
  match s with
  | c :: r =>
      if is_digit c
      then let '(ds, rest) := span_digits r in (c :: ds, rest)
      else ([], s)
  | [] => ([], [])
  end.

Definition digits_value (ds : list ascii) : Z :=
  fold_left (fun acc c => 10 * acc + digit_value c) ds 0.

Definition parse_sign (s : list ascii) : bool * list ascii :=
  match s with
  | "-"%char :: r => (true, r)
  | "+"%char :: r => (false, r)
  | _ => (false, s)
  end.

(** [inf], [infinity] and [nan], in any letter case. *)
Definition parse_special (sign : bool) (s : list ascii) : option float :=
  let t := string_of_list_ascii (map lower s) in
  if (String.eqb t "inf" || String.eqb t "infinity")%string
  then Some (S754_infinity sign)
  else if String.eqb t "nan" then Some S754_nan
  else None.

(** A decimal numeral [digits [. digits] [e [sign] digits]] with at least
    one mantissa digit, as a mantissa and a power of ten. *)
Definition parse_decimal (s : list ascii) : option (Z * Z) :=
  let '(ip, r1) := span_digits s in
  let '(fp, r2) :=
    match r1 with
    | "."%char :: r => span_digits r
    | _ => ([], r1)
    end in
  let m := digits_value (ip ++ fp) in
  let scale := Z.of_nat (length fp) in
  match ip ++ fp with
  | [] => None
  | _ :: _ =>
      match r2 with
      | [] => Some (m, - scale)
      | c :: r3 =>
          if Ascii.eqb (lower c) "e" then
            let '(neg, r4) := parse_sign r3 in
            let '(ep, r5) := span_digits r4 in
            match ep, r5 with
            | _ :: _, [] =>
                let e := digits_value ep in
                Some (m, (if neg then - e else e) - scale)
            | _, _ => None
            end
          else None
      end
  end.

(** The float nearest to [(-1)^sign * m * 10^e], ties to even; infinite
    when out of range. *)
Definition decimal_to_float (sign : bool) (m e : Z) : float :=
  match m with
  | Zpos p =>
      if 0 <=? e
      then binary_normalize prec emax
             ((if sign then -1 else 1) * (m * 10 ^ e)) 0 false
      else fdiv (S754_finite sign p 0) (exact (10 ^ (- e)))
  | _ => S754_zero sign
  end.

(** A [str] is represented by its UTF-8 encoding.  [utf8_decode] reads the
    code points back; [None] on bytes that encode no string. *)
Definition continuation (b : ascii) : option N :=
  let n := N_of_ascii b in
  if ((128 <=? n) && (n <? 192))%N then Some (n - 128)%N else None.

Fixpoint utf8_decode (s : list ascii) : option (list N) :=
  match s with
  | [] => Some []
  | b0 :: r0 =>
      let n0 := N_of_ascii b0 in
      if (n0 <? 128)%N then option_map (cons n0) (utf8_decode r0)
      else if (n0 <? 224)%N then
        match r0 with
        | b1 :: r1 =>
            match continuation b1 with
            | Some c1 =>
                let cp := ((n0 - 192) * 64 + c1)%N in
                if (192 <=? n0)%N && (128 <=? cp)%N
                then option_map (cons cp) (utf8_decode r1)
                else None
            | None => None
            end
        | _ => None
        end
      else if (n0 <? 240)%N then
        match r0 with
        | b1 :: b2 :: r2 =>
            match continuation b1, continuation b2 with
            | Some c1, Some c2 =>
                let cp := (((n0 - 224) * 64 + c1) * 64 + c2)%N in
                if (2048 <=? cp)%N && negb ((55296 <=? cp)%N && (cp <? 57344)%N)
                then option_map (cons cp) (utf8_decode r2)
                else None
            | _, _ => None
            end
        | _ => None
        end
      else
        match r0 with
        | b1 :: b2 :: b3 :: r3 =>
            match continuation b1, continuation b2, continuation b3 with
            | Some c1, Some c2, Some c3 =>
                let cp := ((((n0 - 240) * 64 + c1) * 64 + c2) * 64 + c3)%N in
                if (n0 <? 248)%N && (65536 <=? cp)%N && (cp <? 1114112)%N
                then option_map (cons cp) (utf8_decode r3)
                else None
            | _, _, _ => None
            end
        | _ => None
        end
  end.

(** The white space outside ASCII (Unicode 14.0, as in CPython 3.11). *)
Definition unicode_spaces : list N :=
  [
    133; 160; 5760; 8192; 8193; 8194; 8195; 8196; 8197; 8198; 8199; 8200;
    8201; 8202; 8232; 8233; 8239; 8287; 12288 ]%N.

(** The code points of the digit zero of every decimal script outside ASCII
    (Unicode 14.0); the nine code points after each are its digits 1 to
    9. *)
Definition unicode_zeros : list N :=
  [
    1632; 1776; 1984; 2406; 2534; 2662; 2790; 2918; 3046; 3174; 3302;
    3430; 3558; 3664; 3792; 3872; 4160; 4240; 6112; 6160; 6470; 6608;
    6784; 6800; 6992; 7088; 7232; 7248; 42528; 43216; 43264; 43472; 43504;
    43600; 44016; 65296; 66720; 68912; 69734; 69872; 69942; 70096; 70384;
    70736; 70864; 71248; 71360; 71472; 71904; 72016; 72784; 73040; 73120;
    92768; 92864; 93008; 120782; 120792; 120802; 120812; 120822; 123200;
    123632; 125264; 130032 ]%N.

Definition unicode_space (cp : N) : bool :=
  existsb (N.eqb cp) unicode_spaces.

Definition unicode_decimal (cp : N) : option N :=
  match List.find (fun z => (z <=? cp) && (cp <? z + 10))%N unicode_zeros with
  | Some z => Some (cp - z)%N
  | None => None
  end.

(** What [float] makes of one character before it parses: ASCII is kept,
    white space becomes a space, a decimal digit of any script becomes the
    ASCII digit; any other character spoils the string. *)
Definition to_ascii (cp : N) : option ascii :=
  if (cp <? 127)%N then Some (ascii_of_N cp)
  else if unicode_space cp then Some " "%char
  else
    match unicode_decimal cp with
    | Some d => Some (ascii_of_N (48 + d))
    | None => None
    end.

Fixpoint all_to_ascii (cps : list N) : option (list ascii) :=
  match cps with
  | [] => Some []
  | cp :: r =>
      match to_ascii cp, all_to_ascii r with
      | Some c, Some t => Some (c :: t)
      | _, _ => None
      end
  end.

(** The parse of the ASCII text: [ValueError] unless the stripped text is a
    signed decimal numeral, infinity or nan. *)
Definition float_of_ascii (t : list ascii) : outcome float :=
  match drop_underscores None (strip t) with
  | None => Raises ValueError
  | Some t =>
      let '(sign, r) := parse_sign t in
      match parse_special sign r with
      | Some x => Returns x
      | None =>
          match parse_decimal r with
          | Some (m, e) => Returns (decimal_to_float sign m e)
          | None => Raises ValueError
          end
      end
  end.

(** [float(s)] for a string [s]. *)
Definition float_of_string (s : string) : outcome float :=
  match utf8_decode (list_ascii_of_string s) with
  | None => Raises ValueError
  | Some cps =>
      match all_to_ascii cps with
      | None => Raises ValueError
      | Some t => float_of_ascii t
      end
  end.

(** [float(v)] *)
Definition py_float (v : value) : outcome float :=
  match v with
  | VInt z => float_of_int z
  | VFloat x => Returns x
  | VStr s => float_of_string s
  | VNone | VList _ => Raises TypeError
  end.

(** An arithmetic operator on two numbers: integer arithmetic on two
    [int]s, float arithmetic otherwise, the left operand converted first. *)
Definition arith (iop : Z -> Z -> value) (fop : float -> float -> float)
  (a b : value) : outcome value :=
  match a, b with
  | VInt x, VInt y => Returns (iop x y)
  | VInt _, VFloat _ | VFloat _, VInt _ | VFloat _, VFloat _ =>
      try! x := py_float a in
      try! y := py_float b in
      Returns (VFloat (fop x y))
  | _, _ => Raises TypeError
  end.

Fixpoint repeat_string (n : nat) (s : string) : string :=
  match n with
  | O => EmptyString
  | S k => (s ++ repeat_string k s)%string
  end.

Fixpoint repeat_list (n : nat) (l : list Z) : list Z :=
  match n with
  | O => []
  | S k => l ++ repeat_list k l
  end.

(** [a + b] *)
Definition py_add (a b : value) : outcome value :=
  match a, b with
  | VStr s, VStr t => Returns (VStr (s ++ t)%string)
  | VList l, VList k => Returns (VList (l ++ k))
  | _, _ => arith (fun x y => VInt (x + y)) fadd a b
  end.

(** [sys.maxsize], the largest index-sized integer, on a 64-bit build. *)
Definition maxsize : Z := 2 ^ 63 - 1.

(** [len(s)] of a string: its code points. *)
Definition str_len (s : string) : Z :=
  match utf8_decode (list_ascii_of_string s) with
  | Some cps => Z.of_nat (length cps)
  | None => Z.of_nat (String.length s)
  end.

(** How often a sequence of [len] items is repeated by [seq * n]: the count
    must be an index-sized integer, [OverflowError] otherwise; a count below
    1 gives the empty sequence; a result longer than [sys.maxsize] raises
    [too_long].  (Running out of memory on a shorter result is outside the
    model.) *)
Definition repeat_count (len n : Z) (too_long : exn) : outcome nat :=
  if (n <? - maxsize - 1) || (maxsize <? n) then Raises OverflowError
  else if (n <=? 0) || (len =? 0) then Returns O
  else if maxsize / n <? len then Raises too_long
  else Returns (Z.to_nat n).

(** [a * b]: a string or a list is repeated by an [int], in either order;
    numbers are multiplied. *)
Definition py_mul (a b : value) : outcome value :=
  match a, b with
  | VStr s, VInt n | VInt n, VStr s =>
      try! k := repeat_count (str_len s) n OverflowError in
      Returns (VStr (repeat_string k s))
  | VList l, VInt n | VInt n, VList l =>
      try! k := repeat_count (Z.of_nat (length l)) n MemoryError in
      Returns (VList (repeat_list k l))
  | _, _ => arith (fun x y => VInt (x * y)) fmul a b
  end.

(** [a / b]: two [int]s are divided exactly and rounded once; otherwise
    both operands are converted, left first, and only then is the divisor
    compared with zero. *)
Definition py_truediv (a b : value) : outcome value :=
  match a, b with
  | VInt x, VInt y =>
      if y =? 0 then Raises ZeroDivisionError
      else try! q := int_truediv x y in Returns (VFloat q)
  | VInt _, VFloat _ | VFloat _, VInt _ | VFloat _, VFloat _ =>
      try! x := py_float a in
      try! y := py_float b in
      if fzero y then Raises ZeroDivisionError
      else Returns (VFloat (fdiv x y))
  | _, _ => Raises TypeError
  end.

(** [sum(numbers)]: add the items to 0, left to right. *)
Definition py_sum (numbers : list Z) : Z := fold_left Z.add numbers 0.

(** Whitespace as [str.strip] sees it, within ASCII. *)
Definition is_str_space (c : ascii) : bool :=
  let n := N_of_ascii c in
  ((n =? 32) || ((9 <=? n) && (n <=? 13)) || ((28 <=? n) && (n <=? 31)))%N.

Fixpoint str_lstrip (s : list ascii) : list ascii :=
  match s with
  | c :: r => if is_str_space c then str_lstrip r else s
  | [] => []
  end.

(** [s.strip()] on a [str] *)
Definition str_strip (s : string) : string :=
  string_of_list_ascii
    (rev (str_lstrip (rev (str_lstrip (list_ascii_of_string s))))).

(** [print(s)]: one more line on the console. *)
Definition print (s : string) (console : list string) : list string :=
  console ++ [s].

(** The numbers that are sure to fit a float: every float, and every [int]
    below [2**1023] in magnitude. *)
Definition fits (v : value) : Prop :=
  match v with
  | VFloat _ => True
  | VInt z => Z.abs z < 2 ^ 1023
  | _ => False
  end.

(** The strings [float] accepts. *)
Definition parseable (s : string) : Prop :=
  exists x, float_of_string s = Returns x.

(** The arguments [float] is sure to convert: the numbers that fit and the
    parseable strings. *)
Definition convertible (v : value) : Prop :=
  match v with
  | VStr s => parseable s
  | _ => fits v
  end.

End Builtins.

(** ** Functionality *)

Module Functionality.

Module Low.
(** Lines 5-6:
<<
def add_numbers(a,b):
    return a + b
>> *)
Definition add_numbers (a b : value) : outcome value :=
  Builtins.py_add a b.
End Low.

Module High.
(** Lines 20-22:
<<
def add_numbers(a: int | float, b: int | float) -> float:
    a, b = float(a), float(b)
    return a + b
>> *)
Definition add_numbers (a b : value) : outcome value :=
  try! a' := Builtins.py_float a in
  try! b' := Builtins.py_float b in
  Builtins.py_add (VFloat a') (VFloat b').
End High.

End Functionality.

(** ** Readability *)

Module Readability.

Module Low.
(** Lines 34-35: [def ca(w, h): return w * h] *)
Definition ca (w h : value) : outcome value := Builtins.py_mul w h.
End Low.

Module High.
(** Lines 43-44:
    [def calculate_rectangle_area(width, height): return width * height] *)
Definition calculate_rectangle_area (width height : value) : outcome value :=
  Builtins.py_mul width height.
End High.

End Readability.

(** ** Documentation *)

Module Documentation.

Module Low.
(** Lines 56-57: [def multiply(a, b): return a * b] *)
Definition multiply (a b : value) : outcome value := Builtins.py_mul a b.
End Low.

Module High.
(** Lines 69-79: the same body under a docstring. *)
Definition multiply (a b : value) : outcome value := Builtins.py_mul a b.
End High.

End Documentation.

(** ** Reusability *)

Module Reusability.

Module Low.
(** Lines 88-89: [def greet_alice(): return "Hello, Alice!"] *)
Definition greet_alice : string := "Hello, Alice!".
End Low.

Module High.
(** Lines 98-99: [def greet(name: str) -> str: return f"Hello {name}!"] *)
Definition greet (name : string) : string :=
  ("Hello " ++ name ++ "!")%string.
End High.

End Reusability.

(** ** Maintainability *)

Module Maintainability.

Module Low.
(** Lines 114-116:
<<
def process(numbers):
    cleaned = [number for number in numbers if number >= 0]
    return sum(cleaned)
>> *)
Definition process (numbers : list Z) : Z :=
  let cleaned := List.filter (fun number => number >=? 0) numbers in
  Builtins.py_sum cleaned.
End Low.

Module High.
(** Lines 125-126:
<<
def clean_data(numbers: list[int]) -> list[int]:
    return [number for number in numbers if number >= 0]
>> *)
Definition clean_data (numbers : list Z) : list Z :=
  List.filter (fun number => number >=? 0) numbers.

(** Lines 128-129:
<<
def calculate_total (numbers: list[int]) -> int:
    return sum(numbers)
>> *)
Definition calculate_total (numbers : list Z) : Z :=
  Builtins.py_sum numbers.
End High.

(** What the refactoring is meant to compute, in the words of the text:
    [kept numbers r] when [r] is [numbers] with every negative item left
    out and every other item kept, in the original order. *)
Inductive kept : list Z -> list Z -> Prop :=
| kept_nil : kept [] []
| kept_keep x l r : 0 <= x -> kept l r -> kept (x :: l) (x :: r)
| kept_drop x l r : x < 0 -> kept l r -> kept (x :: l) r.

(** The sum of a list. *)
Fixpoint total (l : list Z) : Z :=
  match l with
  | [] => 0
  | x :: r => x + total r
  end.

End Maintainability.

(** ** Robustness *)

Module Robustness.

Module Low.
(** Lines 142-143: [def divide_numbers(a, b): return a / b] *)
Definition divide_numbers (a b : value) : outcome value :=
  Builtins.py_truediv a b.
End Low.

Module High.
(** The text line 158 prints. *)
Definition message : string := "Error: can´t divide by zero".

(** Lines 154-158:
<<
def divide_numbers(a: float, b: float) -> float | None:
    try:
        return a / b
    except ZeroDivisionError:
        print("Error: can´t divide by zero")
>>
    The handler returns by falling off the end, hence [None]; any other
    exception leaves the function. *)
Definition divide_numbers (a b : value) (console : list string)
  : outcome value * list string :=
  match Builtins.py_truediv a b with
  | Returns q => (Returns q, console)
  | Raises ZeroDivisionError => (Returns VNone, Builtins.print message console)
  | Raises e => (Raises e, console)
  end.
End High.

(** The arguments [/] is defined on. *)
Definition number (v : value) : bool :=
  match v with
  | VInt _ | VFloat _ => true
  | _ => false
  end.

(** [b == 0] for a number [b]: the integer zero and the two float zeros. *)
Definition zero_divisor (b : value) : bool :=
  match b with
  | VInt z => z =? 0
  | VFloat x => Builtins.fzero x
  | _ => false
  end.

End Robustness.

(** ** Testability *)

Module Testability.

Module Low.
(** Lines 176-177: [def greet(name): print(f"Hello, {name}!")] *)
Definition greet (name : string) (console : list string)
  : outcome value * list string :=
  (Returns VNone, Builtins.print ("Hello, " ++ name ++ "!")%string console).

(** What [capsys.readouterr().out] holds: every printed line followed by a
    newline. *)
Definition captured_out (lines : list string) : string :=
  String.concat "" (map (fun l => l ++ String "010" EmptyString)%string lines).

(** Lines 179-182, with [capsys] a capture that starts empty and takes the
    place of the console while the test runs:
<<
def test_greet(capsys):
    greet("Alice")
    captured = capsys.readouterr()
    assert captured.out.strip() == "Hello, Alice!"
>> *)
Definition test_greet : outcome value :=
  let '(r, capsys) := greet "Alice" [] in
  try! _ := r in
  let captured := captured_out capsys in
  if String.eqb (Builtins.str_strip captured) "Hello, Alice!"
  then Returns VNone
  else Raises AssertionError.
End Low.

Module High.
(** Lines 190-191: [def greet(name: str) -> str: return f"Hello, {name}!"] *)
Definition greet (name : string) : string :=
  ("Hello, " ++ name ++ "!")%string.

(** Lines 193-194:
    [def test_greet(): assert greet("Alice") == "Hello, Alice!"] *)
Definition test_greet : outcome value :=
  if String.eqb (greet "Alice") "Hello, Alice!"
  then Returns VNone
  else Raises AssertionError.
End High.

End Testability.

(** ** Efficiency: the two [fibonacci_of] *)

Module Efficiency.

Module Low.
(** Lines 208-211:
<<
def fibonacci_of(n):
    if n in {0, 1}:
        return n
    return fibonacci_of(n - 1) + fibonacci_of(n -2)
>> *)
Fixpoint fibonacci_of (fuel : nat) (n : Z) : option Z :=
  match fuel with
  | O => None
  | S fuel' =>
      if (n =? 0) || (n =? 1) then Some n
      else
        match fibonacci_of fuel' (n - 1) with
        | None => None
        | Some a =>
            match fibonacci_of fuel' (n - 2) with
            | None => None
            | Some b => Some (a + b)
            end
        end
  end.
End Low.

Module High.
(** Computations over the module-level [cache]: a call takes the current
    dictionary and gives back an outcome and the dictionary it leaves, or
    [None] when the fuel is exhausted. *)
Definition comp (A : Type) : Type :=
  gmap Z Z -> option (outcome A * gmap Z Z).

Definition bind {A B} (m : comp A) (k : A -> comp B) : comp B :=
  fun c =>
    match m c with
    | None => None
    | Some (Raises e, c1) => Some (Raises e, c1)
    | Some (Returns a, c1) => k a c1
    end.

(** [n in cache] *)
Definition contains (n : Z) : comp bool :=
  fun c => Some (Returns (bool_decide (is_Some (c !! n))), c).

(** [cache[n]], a [KeyError] when the key is absent. *)
Definition getitem (n : Z) : comp Z :=
  fun c =>
    match c !! n with
    | Some v => Some (Returns v, c)
    | None => Some (Raises KeyError, c)
    end.

(** [cache[n] = v] *)
Definition setitem (n v : Z) : comp unit :=
  fun c => Some (Returns tt, <[n := v]> c).

Notation "x <~ m ;; k" := (bind m (fun x => k))
  (at level 100, m at next level, right associativity).

(** Line 227: [cache = {0 : 0, 1: 1}] *)
Definition cache : gmap Z Z := <[0 := 0]> (<[1 := 1]> ∅).

(** Lines 228-233:
<<
def fibonacci_of(n):
    if n in cache:
        return cache[n]
    cache[n] = fibonacci_of(n - 1) + fibonacci_of(n -2)
    return cache[n]
>> *)
Fixpoint fibonacci_of (fuel : nat) (n : Z) : comp Z :=
  match fuel with
  | O => fun _ => None
  | S fuel' =>
      hit <~ contains n ;;
      if hit then getitem n
      else
        a <~ fibonacci_of fuel' (n - 1) ;;
        b <~ fibonacci_of fuel' (n - 2) ;;
        _ <~ setitem n (a + b) ;;
        getitem n
  end.
End High.

(** The mathematical Fibonacci sequence, the reference both snippets are
    compared with. *)
Fixpoint fib (n : nat) : Z :=
  match n with
  | O => 0
  | S m =>
      match m with
      | O => 1
      | S k => fib m + fib k
      end
  end.

(** Every entry [cache[k]] is the [k]-th Fibonacci number. *)
Definition cache_inv (c : gmap Z Z) : Prop :=
  forall k v, c !! k = Some v -> 0 <= k /\ v = fib (Z.to_nat k).

(** The two base entries are present. *)
Definition has_base (c : gmap Z Z) : Prop :=
  c !! 0 = Some 0 /\ c !! 1 = Some 1.

(** The keys form an initial segment: below a key that is present, every
    non-negative index is present too. *)
Definition closed (c : gmap Z Z) : Prop :=
  forall k j, is_Some (c !! k) -> 0 <= j <= k -> is_Some (c !! j).

(** Line 236, [[fibonacci_of(n) for n in range(35)]], for any list of
    indices: the calls are made in order on the one dictionary and their
    results collected; an exception ends the comprehension. *)
Fixpoint comprehension (fuel : nat) (ns : list Z) : High.comp (list Z) :=
  match ns with
  | [] => fun c => Some (Returns [], c)
  | n :: rest =>
      High.bind (High.fibonacci_of fuel n) (fun v =>
      High.bind (comprehension fuel rest) (fun vs =>
      fun c => Some (Returns (v :: vs), c)))
  end.

(** [range(n)] *)
Definition range (n : nat) : list Z := map Z.of_nat (seq 0 n).

End Efficiency.

(** ** The examples as one program

    Everything a call can touch outside its own locals: the dictionary
    [cache] of the Efficiency section, which is the only module-level object
    a function body refers to, and the console. *)

Record world : Type := {
  globals : gmap Z Z;
  console : list string
}.

Module Examples.

(** A call of one of the example functions, with its arguments. *)
Inductive call : Type :=
| Low_add_numbers (a b : value)
| High_add_numbers (a b : value)
| Low_ca (w h : value)
| High_calculate_rectangle_area (width height : value)
| Low_multiply (a b : value)
| High_multiply (a b : value)
| Low_greet_alice
| High_greet_reusable (name : string)
| Low_process (numbers : list Z)
| High_clean_data (numbers : list Z)
| High_calculate_total (numbers : list Z)
| Low_divide_numbers (a b : value)
| High_divide_numbers (a b : value)
| Low_greet_printing (name : string)
| Low_test_greet
| High_greet_testable (name : string)
| High_test_greet
| Low_fibonacci_of (n : Z)
| High_fibonacci_of (n : Z).

Definition pure (r : outcome value) (w : world)
  : option (outcome value * world) :=
  Some (r, w).

Definition printing (f : list string -> outcome value * list string)
  (w : world) : option (outcome value * world) :=
  let '(r, out) := f (console w) in
  Some (r, {| globals := globals w; console := out |}).

Definition int_result (r : outcome Z) : outcome value :=
  try! z := r in Returns (VInt z).

(** Run one call in a world. *)
Definition run (fuel : nat) (c : call) (w : world)
  : option (outcome value * world) :=
  match c with
  | Low_add_numbers a b => pure (Functionality.Low.add_numbers a b) w
  | High_add_numbers a b => pure (Functionality.High.add_numbers a b) w
  | Low_ca a b => pure (Readability.Low.ca a b) w
  | High_calculate_rectangle_area a b =>
      pure (Readability.High.calculate_rectangle_area a b) w
  | Low_multiply a b => pure (Documentation.Low.multiply a b) w
  | High_multiply a b => pure (Documentation.High.multiply a b) w
  | Low_greet_alice => pure (Returns (VStr Reusability.Low.greet_alice)) w
  | High_greet_reusable name =>
      pure (Returns (VStr (Reusability.High.greet name))) w
  | Low_process l => pure (Returns (VInt (Maintainability.Low.process l))) w
  | High_clean_data l =>
      pure (Returns (VList (Maintainability.High.clean_data l))) w
  | High_calculate_total l =>
      pure (Returns (VInt (Maintainability.High.calculate_total l))) w
  | Low_divide_numbers a b => pure (Robustness.Low.divide_numbers a b) w
  | High_divide_numbers a b =>
      printing (Robustness.High.divide_numbers a b) w
  | Low_greet_printing name => printing (Testability.Low.greet name) w
  | Low_test_greet => pure Testability.Low.test_greet w
  | High_greet_testable name =>
      pure (Returns (VStr (Testability.High.greet name))) w
  | High_test_greet => pure Testability.High.test_greet w
  | Low_fibonacci_of n =>
      match Efficiency.Low.fibonacci_of fuel n with
      | Some v => pure (Returns (VInt v)) w
      | None => None
      end
  | High_fibonacci_of n =>
      match Efficiency.High.fibonacci_of fuel n (globals w) with
      | Some (r, c) =>
          Some (int_result r, {| globals := c; console := console w |})
      | None => None
      end
  end.

(** The world the file starts in. *)
Definition initial : world :=
  {| globals := Efficiency.High.cache; console := [] |}.

(** The worlds that calls of the example functions lead to. *)
Inductive reachable : world -> Prop :=
| reach_initial : reachable initial
| reach_call w fuel c r w' :
    reachable w -> run fuel c w = Some (r, w') -> reachable w'.

(** [range(35)] *)
Definition range35 : list Z := map Z.of_nat (seq 0 35).

(** The calls the file itself makes, in the order of the text. *)
Definition demonstrated : list call :=
  [ Low_add_numbers (VInt 2) (VInt 3);
    Low_add_numbers (VInt 2) (VStr "3");
    High_add_numbers (VInt 2) (VInt 3);
    High_add_numbers (VInt 2) (VStr "a");
    Low_ca (VInt 12) (VInt 20);
    High_calculate_rectangle_area (VInt 12) (VInt 20);
    Low_multiply (VInt 2) (VInt 3);
    High_multiply (VInt 2) (VInt 3);
    Low_greet_alice;
    High_greet_reusable "Alice";
    High_greet_reusable "Ana";
    High_greet_reusable "Maria";
    Low_process [1; 2; 3; -1; -2; -3];
    High_clean_data [1; 2; 3; -1; -2; -3];
    High_calculate_total (Maintainability.High.clean_data [1; 2; 3; -1; -2; -3]);
    Low_divide_numbers (VInt 4) (VInt 2);
    Low_divide_numbers (VInt 4) (VInt 0);
    High_divide_numbers (VInt 4) (VInt 2);
    High_divide_numbers (VInt 4) (VInt 0);
    Low_greet_printing "Alice";
    Low_test_greet;
    High_greet_testable "Alice";
    High_test_greet ]
  ++ map Low_fibonacci_of range35
  ++ map High_fibonacci_of range35.

(** The one family of calls that does not return: a Fibonacci index below
    zero. *)
Definition in_domain (c : call) : Prop :=
  match c with
  | Low_fibonacci_of n | High_fibonacci_of n => 0 <= n
  | _ => True
  end.

(** The calls of the memoized [fibonacci_of]. *)
Definition memoized (c : call) : bool :=
  match c with
  | High_fibonacci_of _ => true
  | _ => false
  end.

End Examples.

(** * Properties *)

(** ** Fibonacci *)

Section FibonacciFacts.

Import Efficiency.

Lemma fib_step (n : Z) :
  2 <= n ->
  fib (Z.to_nat n) = fib (Z.to_nat (n - 1)) + fib (Z.to_nat (n - 2)).
Proof.
  intros Hn.
  replace (Z.to_nat n) with (S (S (Z.to_nat (n - 2)))) by lia.
  replace (Z.to_nat (n - 1)) with (S (Z.to_nat (n - 2))) by lia.
  reflexivity.
Qed.

(** The naive version returns the Fibonacci number as soon as the fuel
    exceeds the index. *)
Lemma naive_returns (fuel : nat) :
  forall n : Z,
    0 <= n -> (Z.to_nat n < fuel)%nat ->
    Low.fibonacci_of fuel n = Some (fib (Z.to_nat n)).
Proof.
  induction fuel as [|fuel IH]; intros n Hn Hfuel; [lia|].
  cbn [Low.fibonacci_of].
  destruct (Z.eqb_spec n 0) as [->|H0]; [reflexivity|].
  destruct (Z.eqb_spec n 1) as [->|H1]; [reflexivity|].
  cbn [orb].
  rewrite (IH (n - 1)), (IH (n - 2)) by lia.
  rewrite (fib_step n) by lia. reflexivity.
Qed.

(** One step of the memoized version when the index is in the cache. *)
Lemma memo_hit (fuel : nat) (n v : Z) (c : gmap Z Z) :
  c !! n = Some v ->
  High.fibonacci_of (S fuel) n c = Some (Returns v, c).
Proof.
  intros Hc. cbn [High.fibonacci_of].
  unfold High.bind, High.contains.
  rewrite bool_decide_eq_true_2 by eauto.
  unfold High.getitem. rewrite Hc. reflexivity.
Qed.

(** One step of the memoized version when the index is not in the cache:
    the two recursive calls run in order, the second on the dictionary the
    first one left, and the sum is stored under [n] before it is read back. *)
Lemma memo_miss (fuel : nat) (n : Z) (c : gmap Z Z) :
  c !! n = None ->
  High.fibonacci_of (S fuel) n c =
    match High.fibonacci_of fuel (n - 1) c with
    | None => None
    | Some (Raises e, c1) => Some (Raises e, c1)
    | Some (Returns a, c1) =>
        match High.fibonacci_of fuel (n - 2) c1 with
        | None => None
        | Some (Raises e, c2) => Some (Raises e, c2)
        | Some (Returns b, c2) => Some (Returns (a + b), <[n := a + b]> c2)
        end
    end.
Proof.
  intros Hc. cbn [High.fibonacci_of].
  unfold High.bind at 1. unfold High.contains.
  rewrite bool_decide_eq_false_2 by (rewrite Hc; intros [? ?]; discriminate).
  unfold High.bind, High.setitem, High.getitem.
  destruct (High.fibonacci_of fuel (n - 1) c) as [[[a|e] c1]|]; try reflexivity.
  destruct (High.fibonacci_of fuel (n - 2) c1) as [[[b|e] c2]|]; try reflexivity.
  rewrite lookup_insert_eq. reflexivity.
Qed.

Lemma cache_inv_initial : cache_inv High.cache.
Proof.
  intros k v. unfold High.cache.
  rewrite lookup_insert. case_decide as H0.
  - intros [= <-]. subst k. split; [lia | reflexivity].
  - rewrite lookup_insert. case_decide as H1.
    + intros [= <-]. subst k. split; [lia | reflexivity].
    + rewrite lookup_empty. discriminate.
Qed.

Lemma has_base_initial : has_base High.cache.
Proof. split; reflexivity. Qed.

(** Whatever a call of the memoized version returns was stored under its
    argument; it never raises, never removes or changes an entry, and keeps
    the invariant. *)
Lemma memo_sound (fuel : nat) :
  forall (n : Z) (c c' : gmap Z Z) (r : outcome Z),
    cache_inv c ->
    High.fibonacci_of fuel n c = Some (r, c') ->
    cache_inv c' /\ c ⊆ c' /\ exists v, r = Returns v /\ c' !! n = Some v.
Proof.
  induction fuel as [|fuel IH]; intros n c c' r Hinv Hrun; [discriminate|].
  destruct (c !! n) as [v|] eqn:Hc.
  - rewrite (memo_hit fuel n v c Hc) in Hrun. injection Hrun as <- <-.
    split; [assumption|]. split; [reflexivity|]. eauto.
  - rewrite (memo_miss fuel n c Hc) in Hrun.
    destruct (High.fibonacci_of fuel (n - 1) c) as [[r1 c1]|] eqn:H1;
      [|discriminate].
    destruct (IH _ _ _ _ Hinv H1) as (Hinv1 & Hsub1 & a & -> & Ha).
    destruct (High.fibonacci_of fuel (n - 2) c1) as [[r2 c2]|] eqn:H2;
      [|discriminate].
    destruct (IH _ _ _ _ Hinv1 H2) as (Hinv2 & Hsub2 & b & -> & Hb).
    injection Hrun as <- <-.
    destruct (Hinv1 _ _ Ha) as [Hn1 ->].
    destruct (Hinv2 _ _ Hb) as [Hn2 ->].
    assert (Hsum : fib (Z.to_nat (n - 1)) + fib (Z.to_nat (n - 2))
                   = fib (Z.to_nat n)).
    { symmetry. apply fib_step. lia. }
    split; [|split].
    + intros k v. rewrite lookup_insert. case_decide as Hk.
      * intros [= <-]. subst k. split; [lia | congruence].
      * apply Hinv2.
    + transitivity c1; [assumption|]. transitivity c2; [assumption|].
      apply map_subseteq_spec. intros k v Hk.
      rewrite lookup_insert. case_decide as Hkn; [|assumption].
      subst k. destruct (Hinv2 _ _ Hk) as [_ ->]. congruence.
    + eexists. split; [reflexivity|]. apply lookup_insert_eq.
Qed.

Lemma has_base_mono (c c' : gmap Z Z) :
  c ⊆ c' -> has_base c -> has_base c'.
Proof.
  intros Hsub [H0 H1]. split; eapply lookup_weaken; eassumption.
Qed.

(** With the two base entries in place, the memoized version returns the
    Fibonacci number as soon as the fuel exceeds the index. *)
Lemma memo_returns (fuel : nat) :
  forall (n : Z) (c : gmap Z Z),
    has_base c -> cache_inv c ->
    0 <= n -> (Z.to_nat n < fuel)%nat ->
    exists c',
      High.fibonacci_of fuel n c = Some (Returns (fib (Z.to_nat n)), c').
Proof.
  induction fuel as [|fuel IH]; intros n c Hbase Hinv Hn Hfuel; [lia|].
  destruct (c !! n) as [v|] eqn:Hc.
  - exists c. rewrite (memo_hit fuel n v c Hc).
    destruct (Hinv _ _ Hc) as [_ ->]. reflexivity.
  - assert (H2 : 2 <= n).
    { destruct Hbase as [H0 H1].
      destruct (Z.eq_dec n 0) as [->|]; [congruence|].
      destruct (Z.eq_dec n 1) as [->|]; [congruence|]. lia. }
    rewrite (memo_miss fuel n c Hc).
    destruct (IH (n - 1) c Hbase Hinv) as [c1 E1]; [lia..|].
    destruct (memo_sound _ _ _ _ _ Hinv E1) as (Hinv1 & Hsub1 & _).
    destruct (IH (n - 2) c1 (has_base_mono _ _ Hsub1 Hbase) Hinv1)
      as [c2 E2]; [lia..|].
    rewrite E1, E2. rewrite <- (fib_step n H2). eauto.
Qed.

(** The naive version only returns on a non-negative index, and then the
    Fibonacci number. *)
Lemma naive_sound (fuel : nat) :
  forall n v : Z,
    Low.fibonacci_of fuel n = Some v -> 0 <= n /\ v = fib (Z.to_nat n).
Proof.
  induction fuel as [|fuel IH]; intros n v; [discriminate|].
  cbn [Low.fibonacci_of].
  destruct (Z.eqb_spec n 0) as [->|H0]; [intros [= <-]; split; [lia|reflexivity]|].
  destruct (Z.eqb_spec n 1) as [->|H1]; [intros [= <-]; split; [lia|reflexivity]|].
  cbn [orb].
  destruct (Low.fibonacci_of fuel (n - 1)) as [a|] eqn:Ea; [|discriminate].
  destruct (Low.fibonacci_of fuel (n - 2)) as [b|] eqn:Eb; [|discriminate].
  intros [= <-].
  destruct (IH _ _ Ea) as [Ha ->]. destruct (IH _ _ Eb) as [Hb ->].
  split; [lia|]. symmetry. apply fib_step. lia.
Qed.

(** A call of the memoized version that comes back has returned, not
    raised, and the value is in the dictionary under its argument. *)
Lemma memo_stores (fuel : nat) :
  forall (n : Z) (c c' : gmap Z Z) (r : outcome Z),
    High.fibonacci_of fuel n c = Some (r, c') ->
    exists v, r = Returns v /\ c' !! n = Some v.
Proof.
  induction fuel as [|fuel IH]; intros n c c' r Hrun; [discriminate|].
  destruct (c !! n) as [v|] eqn:Hc.
  - rewrite (memo_hit fuel n v c Hc) in Hrun. injection Hrun as <- <-. eauto.
  - rewrite (memo_miss fuel n c Hc) in Hrun.
    destruct (High.fibonacci_of fuel (n - 1) c) as [[r1 c1]|] eqn:H1;
      [|discriminate].
    destruct (IH _ _ _ _ H1) as (a & -> & _).
    destruct (High.fibonacci_of fuel (n - 2) c1) as [[r2 c2]|] eqn:H2;
      [|discriminate].
    destruct (IH _ _ _ _ H2) as (b & -> & _).
    injection Hrun as <- <-.
    eexists. split; [reflexivity|]. apply lookup_insert_eq.
Qed.

End FibonacciFacts.

(** ** Worlds *)

Section WorldFacts.

Import Efficiency Examples.

(** Only the memoized [fibonacci_of] touches the module-level dictionary. *)
Lemma run_frame (fuel : nat) (c : call) (w w' : world) (r : outcome value) :
  memoized c = false ->
  run fuel c w = Some (r, w') ->
  globals w' = globals w.
Proof.
  intros Hc Hrun.
  destruct c; try discriminate Hc; cbn in Hrun;
    unfold pure, printing in Hrun;
    repeat match type of Hrun with
           | context [let '(_, _) := ?x in _] => destruct x
           | context [match ?x with Some _ => _ | None => _ end] =>
               destruct x; [|discriminate]
           end;
    injection Hrun as _ <-; reflexivity.
Qed.

(** In every world the program reaches, the dictionary holds the two base
    entries and only Fibonacci numbers. *)
Lemma reachable_inv (w : world) :
  reachable w -> has_base (globals w) /\ cache_inv (globals w).
Proof.
  induction 1 as [|w fuel c r w' _ [Hbase Hinv] Hrun].
  - split; [apply has_base_initial | apply cache_inv_initial].
  - destruct (memoized c) eqn:Hc.
    + destruct c; try discriminate Hc. cbn in Hrun.
      destruct (High.fibonacci_of fuel n (globals w)) as [[r0 c0]|] eqn:E;
        [|discriminate].
      injection Hrun as _ <-. cbn.
      destruct (memo_sound _ _ _ _ _ Hinv E) as (Hinv' & Hsub & _).
      split; [eapply has_base_mono; eassumption | assumption].
    + rewrite (run_frame _ _ _ _ _ Hc Hrun). split; assumption.
Qed.

End WorldFacts.

(** ** The claims about the two [fibonacci_of] *)

(** C1.  For every non-negative integer [n], the memoized [fibonacci_of],
    run on the module-level dictionary that starts as [{0: 0, 1: 1}] (in
    whatever state earlier calls left it), and the naive recursive
    [fibonacci_of] return the same value, the [n]-th Fibonacci number: some
    amount of fuel makes both return it, and no amount makes them return
    anything else. *)
Theorem fibonacci_versions_agree (n : Z) (w : world) :
  0 <= n ->
  Examples.reachable w ->
  (exists fuel v c',
      Efficiency.Low.fibonacci_of fuel n = Some v /\
      Efficiency.High.fibonacci_of fuel n (globals w) = Some (Returns v, c') /\
      v = Efficiency.fib (Z.to_nat n)) /\
  (forall fuel1 fuel2 v r c',
      Efficiency.Low.fibonacci_of fuel1 n = Some v ->
      Efficiency.High.fibonacci_of fuel2 n (globals w) = Some (r, c') ->
      r = Returns v /\ v = Efficiency.fib (Z.to_nat n)).
Proof.
  intros Hn Hw.
  destruct (reachable_inv w Hw) as [Hbase Hinv].
  split.
  - exists (S (Z.to_nat n)), (Efficiency.fib (Z.to_nat n)).
    destruct (memo_returns (S (Z.to_nat n)) n (globals w) Hbase Hinv Hn)
      as [c' Hc']; [lia|].
    exists c'. split; [|split]; [|assumption|reflexivity].
    apply naive_returns; [assumption | lia].
  - intros fuel1 fuel2 v r c' Hlow Hhigh.
    destruct (naive_sound _ _ _ Hlow) as [_ ->].
    destruct (memo_sound _ _ _ _ _ Hinv Hhigh) as (Hinv' & _ & u & -> & Hu).
    destruct (Hinv' _ _ Hu) as [_ ->]. split; reflexivity.
Qed.

Lemma fibonacci_versions_agree_witness :
  0 <= 10 /\
  Examples.reachable Examples.initial /\
  (exists fuel v c',
      Efficiency.Low.fibonacci_of fuel 10 = Some v /\
      Efficiency.High.fibonacci_of fuel 10 (globals Examples.initial)
        = Some (Returns v, c') /\
      v = Efficiency.fib (Z.to_nat 10)).
Proof.
  split; [lia|]. split; [apply Examples.reach_initial|].
  apply (fibonacci_versions_agree 10 Examples.initial);
    [lia | apply Examples.reach_initial].
Defined.

(** C3.  The memoized [fibonacci_of] looks its argument up first and
    returns the stored value, leaving the dictionary as it was, when there
    is one; otherwise it calls itself on [n - 1], then on [n - 2] in the
    dictionary the first call left, and once both have returned it stores
    the sum under [n] and returns it: that is what a call on a missing
    index does, and nothing else.  The initial dictionary [{0: 0, 1: 1}]
    holds only Fibonacci numbers and every call keeps it so; on such a
    dictionary with the two base entries a call on [n >= 0] does return,
    with the [n]-th Fibonacci number stored under [n]. *)
Theorem memoized_follows_algorithm :
  (forall fuel n c v,
      c !! n = Some v ->
      Efficiency.High.fibonacci_of (S fuel) n c = Some (Returns v, c)) /\
  (forall fuel n c a b c1 c2,
      c !! n = None ->
      Efficiency.High.fibonacci_of fuel (n - 1) c = Some (Returns a, c1) ->
      Efficiency.High.fibonacci_of fuel (n - 2) c1 = Some (Returns b, c2) ->
      Efficiency.High.fibonacci_of (S fuel) n c
        = Some (Returns (a + b), <[n := a + b]> c2)) /\
  (forall fuel n c r c',
      c !! n = None ->
      Efficiency.High.fibonacci_of (S fuel) n c = Some (r, c') ->
      exists a b c1 c2,
        Efficiency.High.fibonacci_of fuel (n - 1) c = Some (Returns a, c1) /\
        Efficiency.High.fibonacci_of fuel (n - 2) c1 = Some (Returns b, c2) /\
        c' = <[n := a + b]> c2 /\
        r = Returns (a + b)) /\
  Efficiency.cache_inv Efficiency.High.cache /\
  (forall fuel n c r c',
      Efficiency.cache_inv c ->
      Efficiency.High.fibonacci_of fuel n c = Some (r, c') ->
      Efficiency.cache_inv c') /\
  (forall n c,
      0 <= n ->
      Efficiency.has_base c ->
      Efficiency.cache_inv c ->
      exists c',
        Efficiency.High.fibonacci_of (S (Z.to_nat n)) n c
          = Some (Returns (Efficiency.fib (Z.to_nat n)), c') /\
        c' !! n = Some (Efficiency.fib (Z.to_nat n)) /\
        c ⊆ c' /\
        Efficiency.cache_inv c').
Proof.
  split; [|split; [|split; [|split; [|split]]]].
  - intros fuel n c v Hc. apply memo_hit. assumption.
  - intros fuel n c a b c1 c2 Hc H1 H2.
    rewrite (memo_miss fuel n c Hc), H1, H2. reflexivity.
  - intros fuel n c r c' Hc Hrun.
    rewrite (memo_miss fuel n c Hc) in Hrun.
    destruct (Efficiency.High.fibonacci_of fuel (n - 1) c)
      as [[r1 c1]|] eqn:H1; [|discriminate].
    destruct (memo_stores _ _ _ _ _ H1) as (a & -> & _).
    destruct (Efficiency.High.fibonacci_of fuel (n - 2) c1)
      as [[r2 c2]|] eqn:H2; [|discriminate].
    destruct (memo_stores _ _ _ _ _ H2) as (b & -> & _).
    injection Hrun as <- <-. exists a, b, c1, c2. auto.
  - apply cache_inv_initial.
  - intros fuel n c r c' Hinv Hrun.
    apply (memo_sound _ _ _ _ _ Hinv Hrun).
  - intros n c Hn Hbase Hinv.
    destruct (memo_returns (S (Z.to_nat n)) n c Hbase Hinv Hn) as [c' Hrun];
      [lia|].
    destruct (memo_sound _ _ _ _ _ Hinv Hrun) as (Hinv' & Hsub & v & Hv & Hc').
    injection Hv as <-.
    exists c'. auto.
Qed.

Lemma memoized_follows_algorithm_witness :
  Efficiency.High.cache !! 2 = None /\
  Efficiency.High.fibonacci_of 2 2 Efficiency.High.cache
    = Some (Returns (1 + 0), <[2 := 1 + 0]> Efficiency.High.cache).
Proof.
  split; [reflexivity|].
  apply (proj1 (proj2 memoized_follows_algorithm)
           1%nat 2 Efficiency.High.cache 1 0
           Efficiency.High.cache Efficiency.High.cache);
    reflexivity.
Defined.

(** C6.  Every call the file demonstrates comes back (with a value or an
    exception) in every world the program reaches, and so does every call
    of an example function other than a [fibonacci_of] on a negative index;
    in particular the naive and the memoized [fibonacci_of] return on every
    non-negative integer. *)
Theorem examples_terminate :
  (forall c w,
      In c Examples.demonstrated ->
      Examples.reachable w ->
      exists fuel r w', Examples.run fuel c w = Some (r, w')) /\
  (forall c w,
      Examples.in_domain c ->
      Examples.reachable w ->
      exists fuel r w', Examples.run fuel c w = Some (r, w')) /\
  (forall n,
      0 <= n ->
      exists fuel v, Efficiency.Low.fibonacci_of fuel n = Some v) /\
  (forall n w,
      0 <= n ->
      Examples.reachable w ->
      exists fuel v c',
        Efficiency.High.fibonacci_of fuel n (globals w)
          = Some (Returns v, c')).
Proof.
  assert (Hlow : forall n, 0 <= n ->
            exists fuel v, Efficiency.Low.fibonacci_of fuel n = Some v).
  { intros n Hn. exists (S (Z.to_nat n)). eexists.
    apply naive_returns; [assumption | lia]. }
  assert (Hhigh : forall n w, 0 <= n -> Examples.reachable w ->
            exists fuel v c',
              Efficiency.High.fibonacci_of fuel n (globals w)
                = Some (Returns v, c')).
  { intros n w Hn Hw. destruct (reachable_inv w Hw) as [Hbase Hinv].
    exists (S (Z.to_nat n)), (Efficiency.fib (Z.to_nat n)).
    apply memo_returns; [assumption..|lia]. }
  assert (Hall : forall c w, Examples.in_domain c -> Examples.reachable w ->
            exists fuel r w', Examples.run fuel c w = Some (r, w')).
  { intros c w Hc Hw.
    destruct c; cbn in Hc;
      try (exists 0%nat; cbn; unfold Examples.pure, Examples.printing;
           repeat match goal with
                  | |- context [let '(_, _) := ?x in _] => destruct x
                  end;
           eauto; fail).
    - destruct (Hlow n Hc) as (fuel & v & E).
      exists fuel. cbn. rewrite E. unfold Examples.pure. eauto.
    - destruct (Hhigh n w Hc Hw) as (fuel & v & c' & E).
      exists fuel. cbn. rewrite E. eauto. }
  split; [|split; [|split]]; try assumption.
  intros c w Hin Hw. apply Hall; [|assumption].
  unfold Examples.demonstrated in Hin.
  rewrite !in_app_iff, !in_map_iff in Hin.
  destruct Hin as [Hin | [(n & <- & Hn) | (n & <- & Hn)]].
  - cbn in Hin.
    repeat (destruct Hin as [<- | Hin]; [exact I|]). destruct Hin.
  - unfold Examples.range35 in Hn. apply in_map_iff in Hn.
    destruct Hn as (k & <- & _). cbn. lia.
  - unfold Examples.range35 in Hn. apply in_map_iff in Hn.
    destruct Hn as (k & <- & _). cbn. lia.
Qed.

Lemma examples_terminate_witness :
  exists fuel v c',
    Efficiency.High.fibonacci_of fuel 34 (globals Examples.initial)
      = Some (Returns v, c').
Proof.
  apply (proj2 (proj2 (proj2 examples_terminate)) 34 Examples.initial);
    [lia | apply Examples.reach_initial].
Defined.

(** ** The two [greet] *)

(** C5.  The testability-section [greet] passes its unit test:
    [greet("Alice")] is exactly ["Hello, Alice!"], so the assertion of
    [test_greet] holds and the test returns. *)
Theorem greet_passes_its_test :
  Testability.High.greet "Alice" = "Hello, Alice!"%string /\
  Testability.High.test_greet = Returns VNone.
Proof. split; reflexivity. Qed.

(** C9.  The reusability-section [greet] puts no comma after "Hello":
    its result is "Hello ", the name and "!", so [greet("Alice")] is
    "Hello Alice!"; the sixth character is a space where the
    testability-section [greet] has a comma, so the two differ on every
    name. *)
Theorem reusable_greet_has_no_comma :
  (forall name,
      Reusability.High.greet name = ("Hello " ++ name ++ "!")%string /\
      String.get 5 (Reusability.High.greet name) = Some " "%char /\
      String.get 5 (Testability.High.greet name) = Some ","%char /\
      Reusability.High.greet name <> Testability.High.greet name) /\
  Reusability.High.greet "Alice" = "Hello Alice!"%string.
Proof.
  split; [|reflexivity].
  intros name.
  assert (H1 : String.get 5 (Reusability.High.greet name) = Some " "%char)
    by reflexivity.
  assert (H2 : String.get 5 (Testability.High.greet name) = Some ","%char)
    by reflexivity.
  repeat split; try assumption.
  intros E. rewrite E in H1. rewrite H1 in H2. discriminate.
Qed.

(** ** The maintainability refactoring *)

Section MaintainabilityFacts.

Import Maintainability.

Lemma clean_data_cons (x : Z) (l : list Z) :
  High.clean_data (x :: l)
  = if x >=? 0 then x :: High.clean_data l else High.clean_data l.
Proof. reflexivity. Qed.

Lemma clean_data_kept (numbers : list Z) :
  kept numbers (High.clean_data numbers).
Proof.
  induction numbers as [|x l IH]; [constructor|].
  rewrite clean_data_cons.
  destruct (Z.geb_spec x 0).
  - apply kept_keep; [lia | assumption].
  - apply kept_drop; [lia | assumption].
Qed.

Lemma kept_unique (numbers r : list Z) :
  kept numbers r -> r = High.clean_data numbers.
Proof.
  induction 1 as [|x l r Hx _ IH|x l r Hx _ IH]; [reflexivity| |];
    rewrite clean_data_cons;
    destruct (Z.geb_spec x 0); try lia; congruence.
Qed.

Lemma fold_add_total (l : list Z) (acc : Z) :
  fold_left Z.add l acc = acc + total l.
Proof.
  revert acc. induction l as [|x l IH]; intros acc; cbn; [lia|].
  rewrite IH. lia.
Qed.

Lemma py_sum_total (l : list Z) : Builtins.py_sum l = total l.
Proof. unfold Builtins.py_sum. rewrite fold_add_total. lia. Qed.

End MaintainabilityFacts.

(** C7.  The refactoring keeps the behaviour: [process(numbers)] equals
    [calculate_total(clean_data(numbers))] for every list of integers;
    [clean_data] returns the non-negative items of its input in their
    original order, and nothing else does; [calculate_total] returns the sum
    of its argument. *)
Theorem refactoring_preserves_behaviour (numbers : list Z) :
  Maintainability.Low.process numbers
    = Maintainability.High.calculate_total
        (Maintainability.High.clean_data numbers) /\
  Maintainability.kept numbers (Maintainability.High.clean_data numbers) /\
  (forall r, Maintainability.kept numbers r ->
             r = Maintainability.High.clean_data numbers) /\
  Maintainability.High.calculate_total numbers
    = Maintainability.total numbers /\
  Maintainability.Low.process numbers
    = Maintainability.total (Maintainability.High.clean_data numbers).
Proof.
  split; [reflexivity|].
  split; [apply clean_data_kept|].
  split; [apply kept_unique|].
  split; [apply py_sum_total|].
  unfold Maintainability.Low.process. apply py_sum_total.
Qed.

(** ** Rounding to binary64

    Facts about the rounding functions of [SpecFloat] at precision 53 and
    maximal exponent 1024, as far as the conversions of integers need
    them. *)

Section RoundingFacts.

Import Builtins.

Lemma digits2_size (p : positive) : digits2_pos p = Pos.size p.
Proof. induction p; cbn; congruence. Qed.

Lemma Zdigits2_nonneg (m : Z) : 0 <= Zdigits2 m.
Proof. destruct m; cbn; lia. Qed.

Lemma Zdigits2_bounds (m : Z) :
  0 < m -> 2 ^ (Zdigits2 m - 1) <= m < 2 ^ Zdigits2 m.
Proof.
  destruct m as [|p|p]; try lia. intros _. cbn [Zdigits2].
  rewrite digits2_size.
  pose proof (Pos.size_gt p) as Hgt. pose proof (Pos.size_le p) as Hle.
  split.
  - assert (H : 2 ^ Z.pos (Pos.size p) <= 2 * Z.pos p).
    { change (2 * Z.pos p) with (Z.pos p~0).
      rewrite <- Pos2Z.inj_pow. apply Pos2Z.pos_le_pos. exact Hle. }
    replace (Z.pos (Pos.size p)) with (Z.succ (Z.pos (Pos.size p) - 1)) in H by lia.
    rewrite Z.pow_succ_r in H by lia. lia.
  - rewrite <- Pos2Z.inj_pow. apply Pos2Z.pos_lt_pos. exact Hgt.
Qed.

Lemma Zdigits2_le (m k : Z) : 0 <= m -> 0 <= k -> m < 2 ^ k -> Zdigits2 m <= k.
Proof.
  intros Hm Hk Hlt.
  destruct (Z.eq_dec m 0) as [->|Hne]; [cbn; lia|].
  destruct (Zdigits2_bounds m) as [Hlo _]; [lia|].
  destruct (Z.le_gt_cases (Zdigits2 m) k) as [|Hgt]; [assumption|].
  exfalso.
  assert (2 ^ k <= 2 ^ (Zdigits2 m - 1)) by (apply Z.pow_le_mono_r; lia).
  lia.
Qed.

Lemma shr_1_m (r : shr_record) : 0 <= shr_m r -> shr_m (shr_1 r) = shr_m r / 2.
Proof.
  destruct r as [m rb sb]. cbn [shr_m]. intros Hm.
  rewrite <- Z.div2_div.
  destruct m as [|[p|p|]|p]; try lia; reflexivity.
Qed.

Lemma div_div_pos (a b c : Z) : 0 < b -> 0 < c -> a / b / c = a / (b * c).
Proof. intros Hb Hc. apply Z.div_div; lia. Qed.

Lemma pow2_pos (k : Z) : 0 <= k -> 0 < 2 ^ k.
Proof. intros Hk. apply Z.pow_pos_nonneg; lia. Qed.

Lemma iter_shr_1_m (p : positive) :
  forall r : shr_record,
    0 <= shr_m r ->
    shr_m (SpecFloat.iter_pos shr_1 p r) = shr_m r / 2 ^ Z.pos p.
Proof.
  assert (Hdiv : forall a b, 0 <= a -> 0 < b -> 0 <= a / b).
  { intros a b Ha Hb. apply Z.div_pos; assumption. }
  assert (Hp : forall q, 0 < 2 ^ Z.pos q) by (intros q; apply pow2_pos; lia).
  induction p as [p IH|p IH|]; intros r Hr; cbn [SpecFloat.iter_pos].
  - assert (H1 : 0 <= shr_m (shr_1 r)).
    { rewrite shr_1_m by assumption. apply Hdiv; lia. }
    assert (H2 : 0 <= shr_m (SpecFloat.iter_pos shr_1 p (shr_1 r))).
    { rewrite IH by assumption. apply Hdiv; auto. }
    rewrite (IH _ H2), (IH _ H1), shr_1_m by assumption.
    pose proof (Hp p).
    assert (E : 2 ^ Z.pos p~1 = 2 * (2 ^ Z.pos p * 2 ^ Z.pos p)).
    { rewrite <- Z.pow_add_r, <- Z.pow_succ_r by lia. f_equal. lia. }
    rewrite !div_div_pos by lia. rewrite E. reflexivity.
  - assert (H2 : 0 <= shr_m (SpecFloat.iter_pos shr_1 p r)).
    { rewrite IH by assumption. apply Hdiv; auto. }
    rewrite (IH _ H2), (IH _ Hr).
    pose proof (Hp p).
    assert (E : 2 ^ Z.pos p~0 = 2 ^ Z.pos p * 2 ^ Z.pos p).
    { rewrite <- Z.pow_add_r by lia. f_equal. lia. }
    rewrite !div_div_pos by lia. rewrite E. reflexivity.
  - rewrite shr_1_m by assumption. reflexivity.
Qed.

Lemma shr_record_of_loc_m (m : Z) (l : location) :
  shr_m (shr_record_of_loc m l) = m.
Proof. destruct l as [|[]]; reflexivity. Qed.

(** What [shr_fexp] leaves: the exponent raised to the canonical one, the
    mantissa divided accordingly. *)
Lemma shr_fexp_spec (m e : Z) (l : location) (mrs : shr_record) (e' : Z) :
  0 <= m ->
  shr_fexp prec emax m e l = (mrs, e') ->
  e' = Z.max e (fexp prec emax (Zdigits2 m + e)) /\
  shr_m mrs = m / 2 ^ (e' - e).
Proof.
  intros Hm. unfold shr_fexp, shr.
  destruct (fexp prec emax (Zdigits2 m + e) - e) as [|p|p] eqn:En;
    intros [= <- <-].
  - split; [lia|]. rewrite shr_record_of_loc_m.
    replace (e - e) with 0 by lia. rewrite Z.div_1_r. reflexivity.
  - split; [lia|].
    rewrite iter_shr_1_m by (rewrite shr_record_of_loc_m; assumption).
    rewrite shr_record_of_loc_m. f_equal. f_equal. lia.
  - split; [lia|]. rewrite shr_record_of_loc_m.
    replace (e - e) with 0 by lia. rewrite Z.div_1_r. reflexivity.
Qed.

Lemma round_nearest_even_bounds (m : Z) (l : location) :
  m <= round_nearest_even m l <= m + 1.
Proof.
  destruct l as [|[]]; cbn [round_nearest_even];
    try destruct (Z.even m); lia.
Qed.

(** The two shifts of [binary_round_aux], named. *)
Lemma binary_round_aux_spec (sx : bool) (mx ex : Z) (lx : location) :
  0 <= mx ->
  exists m' m1 m'' e' e'',
    e' = Z.max ex (fexp prec emax (Zdigits2 mx + ex)) /\
    m' = mx / 2 ^ (e' - ex) /\
    m' <= m1 <= m' + 1 /\
    e'' = Z.max e' (fexp prec emax (Zdigits2 m1 + e')) /\
    m'' = m1 / 2 ^ (e'' - e') /\
    binary_round_aux prec emax sx mx ex lx =
      match m'' with
      | Z0 => S754_zero sx
      | Zpos m => if e'' <=? emax - prec then S754_finite sx m e''
                  else S754_infinity sx
      | Zneg _ => S754_nan
      end.
Proof.
  intros Hmx. unfold binary_round_aux.
  destruct (shr_fexp prec emax mx ex lx) as [mrs' e'] eqn:E1.
  destruct (shr_fexp_spec _ _ _ _ _ Hmx E1) as [He' Hm'].
  pose proof (round_nearest_even_bounds (shr_m mrs') (loc_of_shr_record mrs'))
    as Hround.
  set (m1 := round_nearest_even (shr_m mrs') (loc_of_shr_record mrs')) in *.
  assert (H0 : 0 <= shr_m mrs').
  { rewrite Hm'. apply Z.div_pos; [assumption|]. apply pow2_pos. lia. }
  destruct (shr_fexp prec emax m1 e' loc_Exact) as [mrs'' e''] eqn:E2.
  assert (H1 : 0 <= m1) by lia.
  destruct (shr_fexp_spec _ _ _ _ _ H1 E2) as [He'' Hm''].
  exists (shr_m mrs'), m1, (shr_m mrs''), e', e''.
  repeat split; try assumption; try lia.
Qed.

Lemma fexp_eq (e : Z) : fexp prec emax e = Z.max (e - 53) (-1074).
Proof. reflexivity. Qed.

Lemma div_pow2_lt (m a k : Z) :
  0 <= k -> 0 <= a -> m < 2 ^ (a + k) -> m / 2 ^ k < 2 ^ a.
Proof.
  intros Hk Ha Hm. apply Z.div_lt_upper_bound; [apply pow2_pos; lia|].
  rewrite <- Z.pow_add_r by lia. replace (k + a) with (a + k) by lia.
  assumption.
Qed.

Lemma div_pow2_pos (m d k : Z) :
  0 <= k -> k <= d -> 2 ^ d <= m -> 0 < m / 2 ^ k.
Proof.
  intros Hk Hd Hm. apply Z.div_str_pos. split; [apply pow2_pos; lia|].
  transitivity (2 ^ d); [|assumption]. apply Z.pow_le_mono_r; lia.
Qed.

(** Rounding a value below [2^1023] never gives an infinity. *)
Lemma round_no_overflow (sx : bool) (mx ex : Z) (lx : location) :
  0 <= mx -> ex <= 970 -> Zdigits2 mx + ex <= 1023 ->
  overflowed (binary_round_aux prec emax sx mx ex lx) = false.
Proof.
  intros Hmx Hex Hd.
  destruct (binary_round_aux_spec sx mx ex lx Hmx)
    as (m' & m1 & m'' & e' & e'' & He' & Hm' & Hm1 & He'' & Hm'' & ->).
  rewrite fexp_eq in He', He''.
  pose proof (Zdigits2_nonneg mx) as Hdn.
  assert (Hlt : m' < 2 ^ (1023 - e')).
  { rewrite Hm'. apply div_pow2_lt; [lia..|].
    destruct (Z.eq_dec mx 0) as [->|Hne]; [apply pow2_pos; lia|].
    destruct (Zdigits2_bounds mx) as [_ Hup]; [lia|].
    eapply Z.lt_le_trans; [exact Hup|]. apply Z.pow_le_mono_r; lia. }
  assert (H0 : 0 <= m').
  { rewrite Hm'. apply Z.div_pos; [assumption|apply pow2_pos; lia]. }
  assert (Hd1 : Zdigits2 m1 <= 1024 - e').
  { apply Zdigits2_le; [lia..|].
    replace (1024 - e') with (Z.succ (1023 - e')) by lia.
    rewrite Z.pow_succ_r by lia. lia. }
  destruct m'' as [|p|p]; try reflexivity.
  destruct (Z.leb_spec e'' (emax - prec)) as [|Hgt]; [reflexivity|].
  exfalso. unfold emax, prec in Hgt. lia.
Qed.

(** Rounding a non-zero value whose exponent is not below the smallest one
    never gives a zero. *)
Lemma round_nonzero (sx : bool) (mx ex : Z) (lx : location) :
  0 < mx -> -1074 <= ex ->
  fzero (binary_round_aux prec emax sx mx ex lx) = false.
Proof.
  intros Hmx Hex.
  destruct (binary_round_aux_spec sx mx ex lx ltac:(lia))
    as (m' & m1 & m'' & e' & e'' & He' & Hm' & Hm1 & He'' & Hm'' & ->).
  rewrite fexp_eq in He', He''.
  destruct (Zdigits2_bounds mx Hmx) as [Hlo _].
  assert (Hd : 1 <= Zdigits2 mx).
  { destruct mx; try lia. cbn. lia. }
  assert (H1 : 0 < m').
  { rewrite Hm'. apply (div_pow2_pos mx (Zdigits2 mx - 1)); [lia..|assumption]. }
  assert (Hm1pos : 0 < m1) by lia.
  destruct (Zdigits2_bounds m1 Hm1pos) as [Hlo1 _].
  assert (Hd1 : 1 <= Zdigits2 m1).
  { destruct m1; try lia. cbn. lia. }
  assert (H2 : 0 < m'').
  { rewrite Hm''. apply (div_pow2_pos m1 (Zdigits2 m1 - 1)); [lia..|assumption]. }
  destruct m'' as [|p|p]; try lia.
  destruct (e'' <=? emax - prec); reflexivity.
Qed.

Lemma iter_xO (p d : positive) :
  Z.pos (Pos.iter xO p d) = Z.pos p * 2 ^ Z.pos d.
Proof.
  induction d as [|d IH] using Pos.peano_ind.
  - cbn. lia.
  - rewrite Pos.iter_succ, Pos2Z.inj_xO, IH, Pos2Z.inj_succ.
    rewrite Z.pow_succ_r by lia. lia.
Qed.

Lemma shl_align_spec (p : positive) (ex ex' : Z) (mz : positive) (ez : Z) :
  shl_align p ex ex' = (mz, ez) ->
  ez = Z.min ex ex' /\ Z.pos mz = Z.pos p * 2 ^ (ex - ez).
Proof.
  unfold shl_align.
  destruct (ex' - ex) as [|d|d] eqn:E; intros [= <- <-].
  - split; [lia|]. replace (ex - ex) with 0 by lia. cbn. lia.
  - split; [lia|]. replace (ex - ex) with 0 by lia. cbn. lia.
  - split; [lia|]. rewrite iter_xO. f_equal. f_equal. lia.
Qed.

Lemma Zdigits2_pos_le (p : positive) (k : Z) :
  Z.pos p < 2 ^ k -> 0 <= k -> Zdigits2 (Z.pos p) <= k.
Proof. intros H Hk. apply Zdigits2_le; lia. Qed.

(** What rounding an integer gives: never a zero for a non-zero integer,
    never an infinity below [2^1023]. *)
Lemma binary_round_int (sx : bool) (p : positive) :
  fzero (binary_round prec emax sx p 0) = false /\
  (Z.pos p < 2 ^ 1023 -> overflowed (binary_round prec emax sx p 0) = false).
Proof.
  unfold binary_round.
  destruct (shl_align p 0 (fexp prec emax (Z.pos (digits2_pos p) + 0)))
    as [mz ez] eqn:E.
  destruct (shl_align_spec _ _ _ _ _ E) as [Hez Hmz].
  rewrite fexp_eq in Hez.
  split.
  - apply round_nonzero; lia.
  - intros Hp. apply round_no_overflow; [lia..|].
    assert (Hd : Zdigits2 (Z.pos p) <= 1023) by (apply Zdigits2_pos_le; lia).
    destruct (Zdigits2_bounds (Z.pos p)) as [_ Hup]; [lia|].
    assert (Hk : 0 <= 0 - ez) by lia.
    assert (Zdigits2 (Z.pos mz) <= Zdigits2 (Z.pos p) + (0 - ez)).
    { apply Zdigits2_le; [lia| pose proof (Zdigits2_nonneg (Z.pos p)); lia |].
      rewrite Hmz, Z.pow_add_r by (try apply Zdigits2_nonneg; lia).
      apply Z.mul_lt_mono_pos_r; [apply pow2_pos; lia | assumption]. }
    lia.
Qed.

Lemma float_of_int_zero (z : Z) (x : float) :
  float_of_int z = Returns x -> fzero x = (z =? 0).
Proof.
  unfold float_of_int.
  destruct (overflowed _); [discriminate|]. intros [= <-].
  destruct z as [|p|p]; [reflexivity| |];
    cbn [binary_normalize]; apply binary_round_int.
Qed.

Lemma float_of_int_returns (z : Z) :
  Z.abs z < 2 ^ 1023 -> exists x, float_of_int z = Returns x.
Proof.
  intros Hz. unfold float_of_int.
  assert (H : overflowed (binary_normalize prec emax z 0 false) = false).
  { destruct z as [|p|p]; [reflexivity| |];
      cbn [binary_normalize]; apply binary_round_int; lia. }
  rewrite H. eauto.
Qed.

Lemma div_core_bounds (px py : positive) (mz ez : Z) (lz : location) :
  SFdiv_core_binary prec emax (Z.pos px) 0 (Z.pos py) 0 = (mz, ez, lz) ->
  0 <= mz /\ ez <= 0 /\ Zdigits2 mz + ez <= Zdigits2 (Z.pos px).
Proof.
  unfold SFdiv_core_binary. rewrite fexp_eq.
  set (d1 := Zdigits2 (Z.pos px)). set (d2 := Zdigits2 (Z.pos py)).
  set (e' := Z.min (Z.max (d1 + 0 - (d2 + 0) - 53) (-1074)) (0 - 0)).
  set (s := 0 - 0 - e').
  assert (Hs : 0 <= s) by (unfold s, e'; lia).
  set (m' := match s with
             | 0 => Z.pos px
             | Z.pos _ => Z.shiftl (Z.pos px) s
             | Z.neg _ => 0
             end).
  assert (Hm' : m' = Z.pos px * 2 ^ s).
  { unfold m'. destruct s as [|k|k] eqn:Es; [cbn; lia| |lia].
    apply Z.shiftl_mul_pow2. lia. }
  destruct (Z.div_eucl m' (Z.pos py)) as [q r] eqn:Ediv.
  intros [= <- <- <-].
  assert (Hq : q = m' / Z.pos py) by (unfold Z.div; rewrite Ediv; reflexivity).
  assert (Hpow : 0 < 2 ^ s) by (apply pow2_pos; assumption).
  assert (Hm'pos : 0 <= m') by (rewrite Hm'; lia).
  assert (Hq0 : 0 <= q) by (rewrite Hq; apply Z.div_pos; lia).
  assert (Hqle : q <= m').
  { rewrite Hq. apply Z.div_le_upper_bound; [lia|]. nia. }
  split; [assumption|]. split; [unfold e'; lia|].
  pose proof (Zdigits2_nonneg (Z.pos px)) as Hd1. fold d1 in Hd1.
  assert (Zdigits2 q <= d1 + s).
  { apply Zdigits2_le; [assumption|lia|].
    destruct (Zdigits2_bounds (Z.pos px)) as [_ Hup]; [lia|]. fold d1 in Hup.
    rewrite Z.pow_add_r by lia. nia. }
  unfold s in *. lia.
Qed.

Lemma int_truediv_returns (x y : Z) :
  Z.abs x < 2 ^ 1023 -> y <> 0 -> exists q, int_truediv x y = Returns q.
Proof.
  intros Hx Hy. unfold int_truediv.
  match goal with |- context [overflowed ?q] =>
    assert (H : overflowed q = false); [|rewrite H; eauto] end.
  destruct x as [|px|px]; [reflexivity| |];
    (destruct y as [|py|py]; [lia| |]);
    cbn [exact]; unfold fdiv, SFdiv;
    match goal with |- context [SFdiv_core_binary ?a ?b ?m1 ?e1 ?m2 ?e2] =>
      destruct (SFdiv_core_binary a b m1 e1 m2 e2) as [[mz ez] lz] eqn:E end;
    destruct (div_core_bounds _ _ _ _ _ E) as (H0 & He & Hd);
    assert (Hdx : Zdigits2 (Z.pos px) <= 1023)
      by (apply Zdigits2_pos_le; lia);
    apply round_no_overflow; lia.
Qed.

End RoundingFacts.

(** ** Robustness: [divide_numbers] *)

(** The claim "for every [a] and every [b != 0], [divide_numbers] returns
    [a / b] without raising, and for [b = 0] no exception reaches the
    caller" fails on integers too large for a float: [10**400 / 1] raises
    [OverflowError], which the handler does not catch, and so does
    [10**400 / 0.0], where the conversion of the dividend fails before the
    divisor is compared with zero. *)
Lemma divide_numbers_overflow_escapes :
  Robustness.High.divide_numbers (VInt (10 ^ 400)) (VInt 1) []
    = (Raises OverflowError, []) /\
  Robustness.zero_divisor (VInt 1) = false /\
  Robustness.High.divide_numbers (VInt (10 ^ 400)) (VFloat (S754_zero false)) []
    = (Raises OverflowError, []) /\
  Robustness.zero_divisor (VFloat (S754_zero false)) = true.
Proof. repeat split; vm_compute; reflexivity. Qed.

(** C2, amended.  For all [a] and [b] that are floats or integers below
    [2**1023] in magnitude: when [b] is not zero, [divide_numbers(a, b)]
    returns the float [a / b], raises nothing and prints nothing (for two
    floats the quotient is the IEEE division); when [b] is zero (the integer
    0 or a float zero of either sign) it raises nothing, prints the error
    message and returns [None]. *)
Theorem divide_numbers_reports_zero_division
  (a b : value) (console : list string) :
  Builtins.fits a ->
  Builtins.fits b ->
  (Robustness.zero_divisor b = false ->
   exists q,
     Builtins.py_truediv a b = Returns (VFloat q) /\
     Robustness.High.divide_numbers a b console
       = (Returns (VFloat q), console) /\
     (forall x y, a = VFloat x -> b = VFloat y -> q = Builtins.fdiv x y)) /\
  (Robustness.zero_divisor b = true ->
   Robustness.High.divide_numbers a b console
     = (Returns VNone, console ++ [Robustness.High.message])).
Proof.
  intros Ha Hb. unfold Robustness.High.divide_numbers.
  destruct a as [x|x| | |]; try contradiction;
    destruct b as [y|y| | |]; try contradiction;
    cbn [Builtins.fits Robustness.zero_divisor] in *.
  - (* int / int *)
    cbn [Builtins.py_truediv]. split; intros Hz; rewrite Hz.
    + destruct (int_truediv_returns x y Ha) as [q Hq]; [lia|].
      rewrite Hq. cbn. exists q. repeat split. intros ? ? [=].
    + reflexivity.
  - (* int / float *)
    destruct (float_of_int_returns x Ha) as [x' Hx].
    cbn [Builtins.py_truediv Builtins.py_float and_then]. rewrite Hx.
    cbn [and_then]. split; intros Hz; rewrite Hz.
    + exists (Builtins.fdiv x' y). repeat split. intros ? ? [=].
    + reflexivity.
  - (* float / int *)
    destruct (float_of_int_returns y Hb) as [y' Hy].
    pose proof (float_of_int_zero y y' Hy) as Hzero.
    cbn [Builtins.py_truediv Builtins.py_float and_then]. rewrite Hy.
    cbn [and_then]. rewrite Hzero. split; intros Hz; rewrite Hz.
    + exists (Builtins.fdiv x y'). repeat split. intros ? ? _ [=].
    + reflexivity.
  - (* float / float *)
    cbn [Builtins.py_truediv Builtins.py_float and_then].
    split; intros Hz; rewrite Hz.
    + exists (Builtins.fdiv x y). repeat split. intros ? ? [= ->] [= ->].
      reflexivity.
    + reflexivity.
Qed.

Lemma divide_numbers_reports_zero_division_witness :
  Builtins.fits (VInt 4) /\
  Builtins.fits (VInt 0) /\
  Robustness.High.divide_numbers (VInt 4) (VInt 0) []
    = (Returns VNone, [Robustness.High.message]).
Proof.
  split; [cbn; lia|]. split; [cbn; lia|].
  apply (divide_numbers_reports_zero_division (VInt 4) (VInt 0) []);
    [cbn; lia | cbn; lia | reflexivity].
Defined.

(** ** Functionality: [add_numbers] *)

Lemma float_of_string_cases (s : string) :
  Builtins.float_of_string s = Raises ValueError \/ Builtins.parseable s.
Proof.
  unfold Builtins.parseable, Builtins.float_of_string.
  destruct (Builtins.utf8_decode _) as [cps|]; [|left; reflexivity].
  destruct (Builtins.all_to_ascii cps) as [t0|]; [|left; reflexivity].
  unfold Builtins.float_of_ascii.
  destruct (Builtins.drop_underscores _ _) as [t|]; [|left; reflexivity].
  destruct (Builtins.parse_sign t) as [sign r].
  destruct (Builtins.parse_special sign r) as [x|]; [right; eauto|].
  destruct (Builtins.parse_decimal r) as [[m e]|]; [right; eauto|].
  left; reflexivity.
Qed.

Lemma py_float_convertible (v : value) :
  Builtins.convertible v -> exists x, Builtins.py_float v = Returns x.
Proof.
  destruct v as [z|x|s| |]; cbn; try contradiction.
  - apply float_of_int_returns.
  - eauto.
  - trivial.
Qed.

(** The claim "[add_numbers] returns [float(a) + float(b)] whenever both
    arguments are numbers or parseable strings, and raises [ValueError]
    when an argument is a string that cannot be parsed" fails on integers
    too large for a float: [float(10**400)] raises [OverflowError], also
    when the other argument is the unparseable string ["a"]. *)
Lemma add_numbers_overflow_escapes :
  Functionality.High.add_numbers (VInt (10 ^ 400)) (VInt 1)
    = Raises OverflowError /\
  Functionality.High.add_numbers (VInt (10 ^ 400)) (VStr "a")
    = Raises OverflowError /\
  Builtins.float_of_string "a" = Raises ValueError.
Proof. repeat split; vm_compute; reflexivity. Qed.

(** C8, amended.  [add_numbers(a, b)] returns [float(a) + float(b)]
    whenever each argument is a float, an integer below [2**1023] in
    magnitude or a string parseable as a float, so [add_numbers(2, "3")]
    returns 5.0; it raises [ValueError] when the first argument is a string
    that cannot be parsed, and when the first argument is one of the above
    and the second is such a string, so the file's own call
    [add_numbers(2, "a")] raises instead of returning.  A string is parsed
    as [float] parses it: white space around the numeral and decimal digits
    of any script are accepted, so [add_numbers(2, " ３ ")] is 5.0 too. *)
Theorem add_numbers_converts_then_adds :
  (forall a b,
      Builtins.convertible a ->
      Builtins.convertible b ->
      exists x y,
        Builtins.py_float a = Returns x /\
        Builtins.py_float b = Returns y /\
        Functionality.High.add_numbers a b
          = Returns (VFloat (Builtins.fadd x y))) /\
  (forall s b,
      ~ Builtins.parseable s ->
      Functionality.High.add_numbers (VStr s) b = Raises ValueError) /\
  (forall a s,
      Builtins.convertible a ->
      ~ Builtins.parseable s ->
      Functionality.High.add_numbers a (VStr s) = Raises ValueError) /\
  Functionality.High.add_numbers (VInt 2) (VStr "3")
    = Returns (VFloat (S754_finite false 5629499534213120 (-50))) /\
  Functionality.High.add_numbers (VInt 2) (VStr "a") = Raises ValueError /\
  Functionality.High.add_numbers (VInt 2) (VStr " ３ ")
    = Returns (VFloat (S754_finite false 5629499534213120 (-50))).
Proof.
  assert (Hbad : forall s, ~ Builtins.parseable s ->
                   Builtins.py_float (VStr s) = Raises ValueError).
  { intros s Hs. cbn. destruct (float_of_string_cases s); tauto. }
  split; [|split; [|split; [|split; [|split]]]].
  - intros a b Ha Hb.
    destruct (py_float_convertible a Ha) as [x Hx].
    destruct (py_float_convertible b Hb) as [y Hy].
    exists x, y. unfold Functionality.High.add_numbers.
    rewrite Hx, Hy. repeat split.
  - intros s b Hs. unfold Functionality.High.add_numbers.
    rewrite (Hbad s Hs). reflexivity.
  - intros a s Ha Hs. unfold Functionality.High.add_numbers.
    destruct (py_float_convertible a Ha) as [x ->].
    rewrite (Hbad s Hs). reflexivity.
  - vm_compute. reflexivity.
  - vm_compute. reflexivity.
  - vm_compute. reflexivity.
Qed.

Lemma add_numbers_converts_then_adds_witness :
  Builtins.convertible (VInt 2) /\
  Builtins.convertible (VStr "3") /\
  exists x y,
    Builtins.py_float (VInt 2) = Returns x /\
    Builtins.py_float (VStr "3") = Returns y /\
    Functionality.High.add_numbers (VInt 2) (VStr "3")
      = Returns (VFloat (Builtins.fadd x y)).
Proof.
  assert (H2 : Builtins.convertible (VInt 2)) by (cbn; lia).
  assert (H3 : Builtins.convertible (VStr "3")).
  { eexists. vm_compute. reflexivity. }
  split; [exact H2|]. split; [exact H3|].
  apply (proj1 add_numbers_converts_then_adds (VInt 2) (VStr "3") H2 H3).
Defined.

(** ** Shared state *)

Section SharedState.

Import Examples.

Lemma divide_numbers_result (a b : value) (out1 out2 : list string) :
  fst (Robustness.High.divide_numbers a b out1)
  = fst (Robustness.High.divide_numbers a b out2).
Proof.
  unfold Robustness.High.divide_numbers.
  destruct (Builtins.py_truediv a b) as [q|[]]; reflexivity.
Qed.

(** The outcome of a call is the same in every world the program reaches,
    whatever the fuel, as long as the call comes back. *)
Lemma run_result_stable (c : call) (fuel1 fuel2 : nat)
  (w1 w2 w1' w2' : world) (r1 r2 : outcome value) :
  reachable w1 -> reachable w2 ->
  run fuel1 c w1 = Some (r1, w1') ->
  run fuel2 c w2 = Some (r2, w2') ->
  r1 = r2.
Proof.
  intros Hw1 Hw2 H1 H2.
  destruct (reachable_inv w1 Hw1) as [_ Hinv1].
  destruct (reachable_inv w2 Hw2) as [_ Hinv2].
  destruct c; cbn in H1, H2; unfold pure, printing in H1, H2;
    try (injection H1 as <- _; injection H2 as <- _; reflexivity).
  - (* divide_numbers *)
    pose proof (divide_numbers_result a b (console w1) (console w2)) as E.
    destruct (Robustness.High.divide_numbers a b (console w1)).
    destruct (Robustness.High.divide_numbers a b (console w2)).
    injection H1 as <- _. injection H2 as <- _. exact E.
  - (* naive fibonacci_of *)
    destruct (Efficiency.Low.fibonacci_of fuel1 n) as [v1|] eqn:E1;
      [|discriminate].
    destruct (Efficiency.Low.fibonacci_of fuel2 n) as [v2|] eqn:E2;
      [|discriminate].
    injection H1 as <- _. injection H2 as <- _.
    destruct (naive_sound _ _ _ E1) as [_ ->].
    destruct (naive_sound _ _ _ E2) as [_ ->]. reflexivity.
  - (* memoized fibonacci_of *)
    destruct (Efficiency.High.fibonacci_of fuel1 n (globals w1))
      as [[q1 c1]|] eqn:E1; [|discriminate].
    destruct (Efficiency.High.fibonacci_of fuel2 n (globals w2))
      as [[q2 c2]|] eqn:E2; [|discriminate].
    injection H1 as <- _. injection H2 as <- _.
    destruct (memo_sound _ _ _ _ _ Hinv1 E1) as (Hi1 & _ & v1 & -> & Hv1).
    destruct (memo_sound _ _ _ _ _ Hinv2 E2) as (Hi2 & _ & v2 & -> & Hv2).
    destruct (Hi1 _ _ Hv1) as [_ ->]. destruct (Hi2 _ _ Hv2) as [_ ->].
    reflexivity.
Qed.

(** A call that comes back was made on an argument in the domain. *)
Lemma run_in_domain (c : call) (fuel : nat) (w w' : world)
  (r : outcome value) :
  reachable w -> run fuel c w = Some (r, w') -> in_domain c.
Proof.
  intros Hw Hrun. destruct c; try exact I; cbn in Hrun |- *.
  - destruct (Efficiency.Low.fibonacci_of fuel n) as [v|] eqn:E;
      [|discriminate].
    apply (naive_sound _ _ _ E).
  - destruct (Efficiency.High.fibonacci_of fuel n (globals w))
      as [[q c1]|] eqn:E; [|discriminate].
    destruct (reachable_inv w Hw) as [_ Hinv].
    destruct (memo_sound _ _ _ _ _ Hinv E) as (Hinv' & _ & v & _ & Hv).
    apply (Hinv' _ _ Hv).
Qed.

(** A call on an argument in the domain comes back in every world the
    program reaches, given fuel enough. *)
Lemma run_returns (c : call) (w : world) :
  in_domain c -> reachable w ->
  exists fuel r w', run fuel c w = Some (r, w').
Proof.
  intros Hc Hw.
  destruct c; cbn in Hc;
    try (exists 0%nat; cbn; unfold pure, printing;
         repeat match goal with
                | |- context [let '(_, _) := ?x in _] => destruct x
                end;
         eauto; fail).
  - exists (S (Z.to_nat n)). cbn [run].
    rewrite (naive_returns (S (Z.to_nat n)) n Hc) by lia.
    unfold pure. eauto.
  - destruct (reachable_inv w Hw) as [Hbase Hinv].
    destruct (memo_returns (S (Z.to_nat n)) n (globals w) Hbase Hinv Hc)
      as [c' E]; [lia|].
    exists (S (Z.to_nat n)). cbn [run]. rewrite E. eauto.
Qed.

End SharedState.

(** The claim "every invocation of every example function leaves all state
    outside the call's own locals unchanged" fails on the memoized
    [fibonacci_of]: from the initial dictionary [{0: 0, 1: 1}], the call
    [fibonacci_of(2)] returns 1 and leaves the entry [2: 1] behind in the
    module-level [cache]. *)
Lemma memoized_call_changes_cache :
  exists w',
    Examples.reachable Examples.initial /\
    Examples.run 2 (Examples.High_fibonacci_of 2) Examples.initial
      = Some (Returns (VInt 1), w') /\
    globals Examples.initial !! 2 = None /\
    globals w' !! 2 = Some 1 /\
    globals w' <> globals Examples.initial.
Proof.
  eexists. split; [apply Examples.reach_initial|].
  split; [vm_compute; reflexivity|].
  split; [reflexivity|]. split; [reflexivity|].
  intros E. apply (f_equal (fun m : gmap Z Z => m !! 2)) in E.
  vm_compute in E. discriminate.
Qed.

(** C4, amended.  Every example function other than the memoized
    [fibonacci_of] leaves the state outside its own locals unchanged
    (console output aside); the memoized [fibonacci_of] only adds entries to
    the module-level [cache] and changes none; and the outcome of an
    invocation does not depend on the state earlier invocations left: a call
    that comes back in one world the program reaches comes back in every
    other, given recursion depth enough, and always with that same outcome.
    Only the depth the memoized [fibonacci_of] needs depends on the
    cache. *)
Theorem only_memoized_fibonacci_keeps_state
  (c : Examples.call) (fuel : nat) (w w' : world) (r : outcome value) :
  Examples.reachable w ->
  Examples.run fuel c w = Some (r, w') ->
  (Examples.memoized c = false -> globals w' = globals w) /\
  globals w ⊆ globals w' /\
  (forall w2,
      Examples.reachable w2 ->
      (exists fuel2 w2', Examples.run fuel2 c w2 = Some (r, w2')) /\
      (forall fuel2 r2 w2',
          Examples.run fuel2 c w2 = Some (r2, w2') -> r2 = r)).
Proof.
  intros Hw Hrun.
  split; [|split].
  - intros Hc. eapply run_frame; eassumption.
  - destruct (Examples.memoized c) eqn:Hc.
    + destruct c; try discriminate Hc. cbn in Hrun.
      destruct (Efficiency.High.fibonacci_of fuel n (globals w))
        as [[q c1]|] eqn:E; [|discriminate].
      injection Hrun as _ <-. cbn.
      destruct (reachable_inv w Hw) as [_ Hinv].
      apply (memo_sound _ _ _ _ _ Hinv E).
    + rewrite (run_frame _ _ _ _ _ Hc Hrun). reflexivity.
  - intros w2 Hw2.
    assert (Hsame : forall fuel2 r2 w2',
               Examples.run fuel2 c w2 = Some (r2, w2') -> r2 = r).
    { intros fuel2 r2 w2' Hrun2.
      eapply run_result_stable;
        [exact Hw2 | exact Hw | exact Hrun2 | exact Hrun]. }
    split; [|exact Hsame].
    destruct (run_returns c w2 (run_in_domain c fuel w w' r Hw Hrun) Hw2)
      as (fuel2 & r2 & w2' & Hrun2).
    exists fuel2, w2'. rewrite <- (Hsame _ _ _ Hrun2). exact Hrun2.
Qed.

Lemma only_memoized_fibonacci_keeps_state_witness :
  Examples.reachable Examples.initial /\
  globals Examples.initial
    ⊆ <[2 := 1]> (globals Examples.initial).
Proof.
  split; [apply Examples.reach_initial|].
  refine (proj1 (proj2 (only_memoized_fibonacci_keeps_state
           (Examples.High_fibonacci_of 2) 2 Examples.initial
           {| globals := <[2 := 1]> (globals Examples.initial);
              console := [] |}
           (Returns (VInt 1)) Examples.reach_initial _))).
  vm_compute. reflexivity.
Defined.

(** * Further properties of the examples *)

(** ** Efficiency *)

Section FibonacciDepth.

Import Efficiency.

(** The naive version returns exactly when the fuel covers the depth of the
    recursion, which is the index itself (one call for 0 and 1). *)
Lemma naive_returns_tight (fuel : nat) :
  forall n : Z,
    0 <= n -> (1 <= fuel)%nat -> (Z.to_nat n <= fuel)%nat ->
    Low.fibonacci_of fuel n = Some (fib (Z.to_nat n)).
Proof.
  induction fuel as [|fuel IH]; intros n Hn H1 Hfuel; [lia|].
  cbn [Low.fibonacci_of].
  destruct (Z.eqb_spec n 0) as [->|H0]; [reflexivity|].
  destruct (Z.eqb_spec n 1) as [->|Hn1]; [reflexivity|].
  cbn [orb].
  rewrite (IH (n - 1)), (IH (n - 2)) by lia.
  rewrite (fib_step n) by lia. reflexivity.
Qed.

Lemma naive_depth (fuel : nat) :
  forall n v : Z,
    Low.fibonacci_of fuel n = Some v ->
    (1 <= fuel)%nat /\ (Z.to_nat n <= fuel)%nat.
Proof.
  induction fuel as [|fuel IH]; intros n v; [discriminate|].
  cbn [Low.fibonacci_of].
  destruct (Z.eqb_spec n 0) as [->|H0]; [intros _; lia|].
  destruct (Z.eqb_spec n 1) as [->|H1]; [intros _; lia|].
  cbn [orb].
  destruct (Low.fibonacci_of fuel (n - 1)) as [a|] eqn:Ea; [|discriminate].
  intros _. destruct (IH _ _ Ea). lia.
Qed.

(** Downward closure is kept by every call of the memoized version. *)
Lemma memo_closed (fuel : nat) :
  forall (n : Z) (c c' : gmap Z Z) (r : outcome Z),
    cache_inv c -> closed c ->
    High.fibonacci_of fuel n c = Some (r, c') ->
    closed c'.
Proof.
  induction fuel as [|fuel IH]; intros n c c' r Hinv Hcl Hrun; [discriminate|].
  destruct (c !! n) as [v|] eqn:Hc.
  - rewrite (memo_hit fuel n v c Hc) in Hrun. injection Hrun as _ <-.
    assumption.
  - rewrite (memo_miss fuel n c Hc) in Hrun.
    destruct (High.fibonacci_of fuel (n - 1) c) as [[r1 c1]|] eqn:H1;
      [|discriminate].
    destruct (memo_sound _ _ _ _ _ Hinv H1) as (Hinv1 & _ & a & -> & Ha).
    pose proof (IH _ _ _ _ Hinv Hcl H1) as Hcl1.
    destruct (High.fibonacci_of fuel (n - 2) c1) as [[r2 c2]|] eqn:H2;
      [|discriminate].
    destruct (memo_sound _ _ _ _ _ Hinv1 H2) as (_ & Hsub2 & b & -> & _).
    pose proof (IH _ _ _ _ Hinv1 Hcl1 H2) as Hcl2.
    injection Hrun as _ <-.
    assert (Hprev : is_Some (c2 !! (n - 1))).
    { exists a. eapply lookup_weaken; eassumption. }
    intros k j Hk Hj.
    destruct (Z.eq_dec j n) as [->|Hjn].
    { rewrite lookup_insert_eq. eauto. }
    rewrite lookup_insert_ne by congruence.
    destruct (Z.eq_dec k n) as [->|Hkn].
    + apply (Hcl2 (n - 1) j Hprev). lia.
    + rewrite lookup_insert_ne in Hk by congruence.
      apply (Hcl2 k j Hk Hj).
Qed.

Lemma closed_initial : closed High.cache.
Proof.
  intros k j [v Hk] Hj.
  destruct (cache_inv_initial k v Hk) as [Hk0 _].
  assert (Hk1 : k = 0 \/ k = 1).
  { unfold High.cache in Hk. rewrite lookup_insert in Hk.
    case_decide; [lia|]. rewrite lookup_insert in Hk.
    case_decide; [lia|]. rewrite lookup_empty in Hk. discriminate. }
  assert (Hj1 : j = 0 \/ j = 1) by lia.
  destruct Hj1 as [-> | ->]; eexists; reflexivity.
Qed.

Lemma reachable_closed (w : world) :
  Examples.reachable w -> closed (globals w).
Proof.
  induction 1 as [|w fuel c r w' Hw IHw Hrun]; [apply closed_initial|].
  destruct (Examples.memoized c) eqn:Hc.
  - destruct c; try discriminate Hc. cbn in Hrun.
    destruct (High.fibonacci_of fuel n (globals w)) as [[r0 c0]|] eqn:E;
      [|discriminate].
    injection Hrun as _ <-. cbn.
    destruct (reachable_inv w Hw) as [_ Hinv].
    eapply memo_closed; eassumption.
  - rewrite (run_frame _ _ _ _ _ Hc Hrun). assumption.
Qed.

(** A miss whose two predecessors are in the dictionary is answered at
    depth two. *)
Lemma memo_shallow (n a b : Z) (c : gmap Z Z) :
  c !! n = None ->
  c !! (n - 1) = Some a ->
  c !! (n - 2) = Some b ->
  High.fibonacci_of 2 n c = Some (Returns (a + b), <[n := a + b]> c).
Proof.
  intros Hn Ha Hb.
  rewrite (memo_miss 1 n c Hn), (memo_hit 0 (n - 1) a c Ha),
    (memo_hit 0 (n - 2) b c Hb).
  reflexivity.
Qed.

End FibonacciDepth.

Section FibonacciLoop.

Import Efficiency.

Lemma comprehension_cons (fuel : nat) (n : Z) (rest : list Z)
  (c c1 c2 : gmap Z Z) (v : Z) (vs : list Z) :
  High.fibonacci_of fuel n c = Some (Returns v, c1) ->
  comprehension fuel rest c1 = Some (Returns vs, c2) ->
  comprehension fuel (n :: rest) c = Some (Returns (v :: vs), c2).
Proof.
  intros H1 H2. cbn [comprehension]. unfold High.bind.
  rewrite H1, H2. reflexivity.
Qed.

(** The loop over the indices [i, i + len), started on a dictionary that is
    closed and holds [i - 1], runs at depth two. *)
Lemma comprehension_from (len : nat) :
  forall (i : nat) (c : gmap Z Z),
    cache_inv c -> has_base c -> closed c ->
    ((1 <= i)%nat -> is_Some (c !! (Z.of_nat i - 1))) ->
    exists c',
      comprehension 2 (map Z.of_nat (seq i len)) c
        = Some (Returns (map fib (seq i len)), c') /\
      cache_inv c' /\ c ⊆ c' /\
      (forall k, (i <= k < i + len)%nat -> is_Some (c' !! Z.of_nat k)).
Proof.
  induction len as [|len IH]; intros i c Hinv Hbase Hcl Hprev.
  - exists c. cbn [seq map comprehension].
    split; [reflexivity|]. split; [assumption|]. split; [reflexivity|].
    intros k Hk. lia.
  - cbn [seq map].
    assert (Hcall : exists c1,
               High.fibonacci_of 2 (Z.of_nat i) c
                 = Some (Returns (fib i), c1) /\
               cache_inv c1 /\ c ⊆ c1 /\ closed c1 /\
               is_Some (c1 !! Z.of_nat i)).
    { destruct (c !! Z.of_nat i) as [v|] eqn:Hc.
      - exists c. destruct (Hinv _ _ Hc) as [_ Hv].
        rewrite Nat2Z.id in Hv. subst v.
        rewrite (memo_hit 1 _ _ _ Hc).
        split; [reflexivity|]. split; [assumption|]. split; [reflexivity|].
        split; [assumption|]. eauto.
      - assert (Hi : (2 <= i)%nat).
        { destruct Hbase as [H0 H1].
          assert (Z.of_nat i <> 0) by (intros E; rewrite E in Hc; congruence).
          assert (Z.of_nat i <> 1) by (intros E; rewrite E in Hc; congruence).
          lia. }
        destruct (Hprev ltac:(lia)) as [a Ha].
        destruct (Hcl (Z.of_nat i - 1) (Z.of_nat i - 2)) as [b Hb];
          [eauto | lia |].
        pose proof (memo_shallow _ _ _ _ Hc Ha Hb) as Hrun.
        destruct (Hinv _ _ Ha) as [_ ->]. destruct (Hinv _ _ Hb) as [_ ->].
        rewrite <- (fib_step (Z.of_nat i)) in Hrun by lia.
        rewrite Nat2Z.id in Hrun.
        destruct (memo_sound _ _ _ _ _ Hinv Hrun) as (Hinv1 & Hsub1 & _).
        pose proof (memo_closed _ _ _ _ _ Hinv Hcl Hrun) as Hcl1.
        eexists. split; [exact Hrun|]. split; [assumption|].
        split; [assumption|]. split; [assumption|].
        rewrite lookup_insert_eq. eauto. }
    destruct Hcall as (c1 & Hrun & Hinv1 & Hsub1 & Hcl1 & Hi1).
    destruct (IH (S i) c1 Hinv1 (has_base_mono _ _ Hsub1 Hbase) Hcl1)
      as (c' & Hloop & Hinv' & Hsub' & Hall).
    { intros _. replace (Z.of_nat (S i) - 1) with (Z.of_nat i) by lia.
      assumption. }
    exists c'. split; [eapply comprehension_cons; eassumption|].
    split; [assumption|]. split; [etransitivity; eassumption|].
    intros k Hk. destruct (Nat.eq_dec k i) as [->|Hne].
    + destruct Hi1 as [v Hv]. exists v. eapply lookup_weaken; eassumption.
    + apply Hall. lia.
Qed.

End FibonacciLoop.

(** X1.  Neither [fibonacci_of] returns on a negative index: the naive
    version has no base case below 0, and the memoized one finds no entry
    there in any dictionary the program reaches; whatever the fuel, the
    recursion goes on. *)
Theorem fibonacci_of_negative_never_returns (n : Z) (fuel : nat) (w : world) :
  n < 0 ->
  Examples.reachable w ->
  Efficiency.Low.fibonacci_of fuel n = None /\
  Efficiency.High.fibonacci_of fuel n (globals w) = None.
Proof.
  intros Hn Hw. split.
  - destruct (Efficiency.Low.fibonacci_of fuel n) as [v|] eqn:E;
      [|reflexivity].
    destruct (naive_sound _ _ _ E). lia.
  - destruct (Efficiency.High.fibonacci_of fuel n (globals w))
      as [[r c']|] eqn:E; [|reflexivity].
    destruct (reachable_inv w Hw) as [_ Hinv].
    destruct (memo_sound _ _ _ _ _ Hinv E) as (Hinv' & _ & v & _ & Hv).
    destruct (Hinv' _ _ Hv). lia.
Qed.

Lemma fibonacci_of_negative_never_returns_witness :
  -1 < 0 /\
  Examples.reachable Examples.initial /\
  Efficiency.Low.fibonacci_of 50 (-1) = None /\
  Efficiency.High.fibonacci_of 50 (-1) (globals Examples.initial) = None.
Proof.
  split; [lia|]. split; [apply Examples.reach_initial|].
  apply (fibonacci_of_negative_never_returns (-1) 50 Examples.initial);
    [lia | apply Examples.reach_initial].
Defined.

(** X2.  The naive [fibonacci_of(n)] nests its calls [n] deep (one call for
    0 and 1): it returns exactly when [n >= 0] and the fuel is at least 1
    and at least [n]. *)
Theorem naive_recursion_depth (fuel : nat) (n : Z) :
  is_Some (Efficiency.Low.fibonacci_of fuel n) <->
  0 <= n /\ (1 <= fuel)%nat /\ (Z.to_nat n <= fuel)%nat.
Proof.
  split.
  - intros [v Hv]. destruct (naive_sound _ _ _ Hv) as [Hn _].
    destruct (naive_depth _ _ _ Hv). auto.
  - intros (Hn & H1 & Hf). eexists. apply naive_returns_tight; assumption.
Qed.

(** X3.  Once the memoized [fibonacci_of(n)] has returned, every index from
    0 to [n] is in the cache: a later call on any of them returns its
    Fibonacci number at once, with no recursive call, and leaves the cache
    as it is. *)
Theorem memoized_results_stay_cached
  (fuel : nat) (n : Z) (w : world) (r : outcome Z) (c' : gmap Z Z) :
  Examples.reachable w ->
  Efficiency.High.fibonacci_of fuel n (globals w) = Some (r, c') ->
  forall k fuel',
    0 <= k <= n ->
    Efficiency.High.fibonacci_of (S fuel') k c'
      = Some (Returns (Efficiency.fib (Z.to_nat k)), c').
Proof.
  intros Hw Hrun k fuel' Hk.
  destruct (reachable_inv w Hw) as [_ Hinv].
  pose proof (reachable_closed w Hw) as Hcl.
  destruct (memo_sound _ _ _ _ _ Hinv Hrun) as (Hinv' & _ & v & _ & Hv).
  pose proof (memo_closed _ _ _ _ _ Hinv Hcl Hrun) as Hcl'.
  destruct (Hcl' n k) as [u Hu]; [eauto | assumption |].
  destruct (Hinv' _ _ Hu) as [_ ->].
  apply memo_hit. assumption.
Qed.

Lemma memoized_results_stay_cached_witness :
  Examples.reachable Examples.initial /\
  Efficiency.High.fibonacci_of 1 7
    (<[7 := 13]> (<[6 := 8]> (<[5 := 5]> (<[4 := 3]> (<[3 := 2]>
       (<[2 := 1]> Efficiency.High.cache))))))
  = Some (Returns (Efficiency.fib (Z.to_nat 7)),
          <[7 := 13]> (<[6 := 8]> (<[5 := 5]> (<[4 := 3]> (<[3 := 2]>
            (<[2 := 1]> Efficiency.High.cache)))))).
Proof.
  split; [apply Examples.reach_initial|].
  refine (memoized_results_stay_cached 8 7 Examples.initial (Returns 13) _
            Examples.reach_initial _ 7 0%nat _).
  - vm_compute. reflexivity.
  - lia.
Defined.

(** X4.  For the demonstration loop [[fibonacci_of(n) for n in range(N)]]
    over the memoized version, nesting depth two is enough for every [N],
    in whatever state the program has reached: each call finds its two
    predecessors in the cache.  The loop yields the first [N] Fibonacci
    numbers and leaves every index below [N] in the cache.  Depth one is
    not enough from the initial cache as soon as [N >= 3]: the call on 2
    has to call once more. *)
Theorem comprehension_runs_at_depth_two :
  (forall (N : nat) (w : world),
      Examples.reachable w ->
      exists c',
        Efficiency.comprehension 2 (Efficiency.range N) (globals w)
          = Some (Returns (map Efficiency.fib (seq 0 N)), c') /\
        forall k, 0 <= k < Z.of_nat N ->
                  c' !! k = Some (Efficiency.fib (Z.to_nat k))) /\
  (forall N : nat,
      (3 <= N)%nat ->
      Efficiency.comprehension 1 (Efficiency.range N) Efficiency.High.cache
        = None).
Proof.
  split.
  - intros N w Hw.
    destruct (reachable_inv w Hw) as [Hbase Hinv].
    destruct (comprehension_from N 0 (globals w) Hinv Hbase
                (reachable_closed w Hw)) as (c' & Hrun & Hinv' & _ & Hall);
      [lia|].
    exists c'. split; [exact Hrun|].
    intros k Hk. destruct (Hall (Z.to_nat k)) as [v Hv]; [lia|].
    rewrite Z2Nat.id in Hv by lia.
    destruct (Hinv' _ _ Hv) as [_ ->]. assumption.
  - intros N HN. destruct N as [|[|[|k]]]; try lia.
    unfold Efficiency.range. cbn [seq map].
    generalize (map Z.of_nat (seq 3 k)). intros rest.
    vm_compute. reflexivity.
Qed.

Lemma comprehension_runs_at_depth_two_witness :
  Examples.reachable Examples.initial /\
  exists c',
    Efficiency.comprehension 2 (Efficiency.range 35) (globals Examples.initial)
      = Some (Returns (map Efficiency.fib (seq 0 35)), c') /\
    forall k, 0 <= k < Z.of_nat 35 ->
              c' !! k = Some (Efficiency.fib (Z.to_nat k)).
Proof.
  split; [apply Examples.reach_initial|].
  apply (proj1 comprehension_runs_at_depth_two 35%nat Examples.initial
           Examples.reach_initial).
Defined.

(** ** Maintainability *)

Section CleaningFacts.

Import Maintainability.

Lemma clean_data_app (l1 l2 : list Z) :
  High.clean_data (l1 ++ l2) = High.clean_data l1 ++ High.clean_data l2.
Proof.
  induction l1 as [|x l1 IH]; [reflexivity|].
  change ((x :: l1) ++ l2) with (x :: (l1 ++ l2)).
  rewrite !clean_data_cons, IH. destruct (x >=? 0); reflexivity.
Qed.

Lemma clean_data_nonneg (l : list Z) :
  Forall (fun x => 0 <= x) (High.clean_data l).
Proof.
  induction l as [|x l IH]; [constructor|].
  rewrite clean_data_cons. destruct (Z.geb_spec x 0); [|assumption].
  constructor; [lia | assumption].
Qed.

Lemma clean_data_fixed (l : list Z) :
  Forall (fun x => 0 <= x) l -> High.clean_data l = l.
Proof.
  induction 1 as [|x l Hx _ IH]; [reflexivity|].
  rewrite clean_data_cons, IH. destruct (Z.geb_spec x 0); [reflexivity|lia].
Qed.

Lemma total_app (l1 l2 : list Z) : total (l1 ++ l2) = total l1 + total l2.
Proof. induction l1 as [|x l1 IH]; cbn; [reflexivity|]. rewrite IH. lia. Qed.

Lemma total_nonneg (l : list Z) :
  Forall (fun x => 0 <= x) l -> 0 <= total l.
Proof. induction 1; cbn; lia. Qed.

Lemma process_total (l : list Z) :
  Low.process l = total (High.clean_data l).
Proof. unfold Low.process. apply py_sum_total. Qed.

(** Cleaning never lowers the sum, and raises it as soon as one item is
    negative. *)
Lemma total_clean_data (l : list Z) :
  total l <= total (High.clean_data l) /\
  (total l = total (High.clean_data l) -> Forall (fun x => 0 <= x) l).
Proof.
  induction l as [|x l [IH1 IH2]]; [split; [reflexivity|constructor]|].
  rewrite clean_data_cons. destruct (Z.geb_spec x 0); cbn [total].
  - split; [lia|]. intros E. constructor; [lia|]. apply IH2. lia.
  - split; [lia|]. intros E. lia.
Qed.

End CleaningFacts.

(** X5.  [clean_data] keeps only non-negative items, changes nothing in a
    list that has no negative item, so cleaning twice is cleaning once, and
    works piece by piece: cleaning a concatenation is concatenating the
    cleaned parts.  It never lengthens its input. *)
Theorem clean_data_is_a_projection (l1 l2 : list Z) :
  Forall (fun x => 0 <= x) (Maintainability.High.clean_data l1) /\
  (Forall (fun x => 0 <= x) l1 -> Maintainability.High.clean_data l1 = l1) /\
  Maintainability.High.clean_data (Maintainability.High.clean_data l1)
    = Maintainability.High.clean_data l1 /\
  Maintainability.High.clean_data (l1 ++ l2)
    = Maintainability.High.clean_data l1 ++ Maintainability.High.clean_data l2 /\
  (length (Maintainability.High.clean_data l1) <= length l1)%nat.
Proof.
  split; [apply clean_data_nonneg|].
  split; [apply clean_data_fixed|].
  split; [apply clean_data_fixed, clean_data_nonneg|].
  split; [apply clean_data_app|].
  induction l1 as [|x l IH]; [reflexivity|].
  rewrite clean_data_cons. destruct (x >=? 0); cbn [length]; lia.
Qed.

(** X6.  [process] never returns a negative number and never less than the
    plain sum of its input; it returns the plain sum exactly when no item
    is negative; the empty list gives 0 and a concatenation gives the sum
    of the parts' results. *)
Theorem process_bounds (l1 l2 : list Z) :
  0 <= Maintainability.Low.process l1 /\
  Maintainability.total l1 <= Maintainability.Low.process l1 /\
  (Maintainability.Low.process l1 = Maintainability.total l1 <->
   Forall (fun x => 0 <= x) l1) /\
  Maintainability.Low.process [] = 0 /\
  Maintainability.Low.process (l1 ++ l2)
    = Maintainability.Low.process l1 + Maintainability.Low.process l2.
Proof.
  rewrite !process_total.
  split; [apply total_nonneg, clean_data_nonneg|].
  split; [apply total_clean_data|].
  split; [split|].
  - intros E. apply total_clean_data. congruence.
  - intros H. rewrite clean_data_fixed by assumption. reflexivity.
  - split; [reflexivity|]. rewrite clean_data_app. apply total_app.
Qed.

(** ** Functionality, Readability and Documentation *)

Section ArithmeticFacts.

Import Builtins.

(** Sums and products that are not NaN do not depend on the order of the
    operands. *)
Lemma fadd_comm (x y : float) :
  fadd x y <> S754_nan -> fadd y x = fadd x y.
Proof.
  intros _. unfold fadd, SFadd.
  destruct x as [sx|sx| |sx mx ex], y as [sy|sy| |sy my ey];
    try reflexivity;
    try (destruct sx, sy; reflexivity).
  rewrite (Z.min_comm ex ey), Z.add_comm. reflexivity.
Qed.

Lemma fmul_comm (x y : float) :
  fmul x y <> S754_nan -> fmul y x = fmul x y.
Proof.
  intros _. unfold fmul, SFmul.
  destruct x as [sx|sx| |sx mx ex], y as [sy|sy| |sy my ey];
    try reflexivity;
    try (rewrite (xorb_comm sx sy); reflexivity).
  rewrite (xorb_comm sx sy), (Pos.mul_comm mx my), (Z.add_comm ex ey).
  reflexivity.
Qed.

(** [a * b] does not depend on the order of its operands, whatever their
    types, unless it is a NaN. *)
Lemma py_mul_comm (a b : value) :
  py_mul a b <> Returns (VFloat S754_nan) -> py_mul b a = py_mul a b.
Proof.
  destruct a as [x|x|s| |l], b as [y|y|t| |k]; try reflexivity;
    cbn [py_mul arith py_float and_then].
  - rewrite Z.mul_comm. reflexivity.
  - destruct (float_of_int x) as [x'|e]; cbn [and_then]; [|reflexivity].
    intros H. rewrite fmul_comm; [reflexivity | congruence].
  - destruct (float_of_int y) as [y'|e]; cbn [and_then]; [|reflexivity].
    intros H. rewrite fmul_comm; [reflexivity | congruence].
  - intros H. rewrite fmul_comm; [reflexivity | congruence].
Qed.

(** [float(v)] gives a float or raises one of three exceptions, the
    [TypeError] only on [None] and lists. *)
Lemma py_float_raises (v : value) (e : exn) :
  py_float v = Raises e ->
  match v with
  | VInt _ => e = OverflowError
  | VFloat _ => False
  | VStr _ => e = ValueError
  | VNone | VList _ => e = TypeError
  end.
Proof.
  destruct v as [z|x|s| |l]; cbn [py_float].
  - unfold float_of_int. destruct (overflowed _); [|discriminate].
    intros [= <-]. reflexivity.
  - discriminate.
  - destruct (float_of_string_cases s) as [-> | [x ->]];
      [intros [= <-]; reflexivity | discriminate].
  - intros [= <-]. reflexivity.
  - intros [= <-]. reflexivity.
Qed.

(** [a / b] returns floats only. *)
Lemma py_truediv_float (a b v : value) :
  py_truediv a b = Returns v -> exists q, v = VFloat q.
Proof.
  destruct a as [x|x|s| |l], b as [y|y|t| |k]; cbn [py_truediv py_float and_then];
    try discriminate.
  - destruct (y =? 0); [discriminate|].
    destruct (int_truediv x y); cbn [and_then]; [|discriminate].
    intros [= <-]. eauto.
  - destruct (float_of_int x); cbn [and_then]; [|discriminate].
    destruct (fzero y); [discriminate|]. intros [= <-]. eauto.
  - destruct (float_of_int y) as [y'|]; cbn [and_then]; [|discriminate].
    destruct (fzero y'); [discriminate|]. intros [= <-]. eauto.
  - destruct (fzero y); [discriminate|]. intros [= <-]. eauto.
Qed.

(** On numbers that fit a float, [a / b] raises [ZeroDivisionError] when
    the divisor is zero and returns a float otherwise. *)
Lemma py_truediv_fits (a b : value) :
  fits a -> fits b ->
  if Robustness.zero_divisor b
  then py_truediv a b = Raises ZeroDivisionError
  else exists q, py_truediv a b = Returns (VFloat q).
Proof.
  intros Ha Hb.
  destruct a as [x|x| | |]; try contradiction;
    destruct b as [y|y| | |]; try contradiction;
    cbn [fits Robustness.zero_divisor py_truediv py_float and_then] in *.
  - destruct (Z.eqb_spec y 0); [reflexivity|].
    destruct (int_truediv_returns x y Ha) as [q ->]; [assumption|].
    cbn. eauto.
  - destruct (float_of_int_returns x Ha) as [x' ->]. cbn [and_then].
    destruct (fzero y); eauto.
  - destruct (float_of_int_returns y Hb) as [y' Hy].
    rewrite Hy, <- (float_of_int_zero y y' Hy). cbn [and_then].
    destruct (fzero y'); eauto.
  - destruct (fzero y); eauto.
Qed.

End ArithmeticFacts.

(** X7.  The low-quality [add_numbers] adds two integers exactly, joins two
    strings instead of adding them, and raises [TypeError] as soon as a
    number meets a string, in either order. *)
Theorem low_add_numbers_mixes_types :
  (forall x y,
      Functionality.Low.add_numbers (VInt x) (VInt y)
        = Returns (VInt (x + y))) /\
  (forall s t,
      Functionality.Low.add_numbers (VStr s) (VStr t)
        = Returns (VStr (s ++ t)%string)) /\
  (forall a s,
      Robustness.number a = true ->
      Functionality.Low.add_numbers a (VStr s) = Raises TypeError /\
      Functionality.Low.add_numbers (VStr s) a = Raises TypeError).
Proof.
  split; [reflexivity|]. split; [reflexivity|].
  intros a s Ha. destruct a; try discriminate Ha; split; reflexivity.
Qed.

(** X8.  On arguments that are integers, floats, strings, [None] or lists
    of integers, the higher-quality [add_numbers] returns a float when it
    returns, never an integer or a string; the exceptions it can raise are
    [ValueError], [OverflowError] and [TypeError], the last only when an
    argument is [None] or a list. *)
Theorem add_numbers_returns_floats (a b : value) :
  (forall v,
      Functionality.High.add_numbers a b = Returns v ->
      exists x, v = VFloat x) /\
  (forall e,
      Functionality.High.add_numbers a b = Raises e ->
      e = ValueError \/ e = OverflowError \/
      (e = TypeError /\
       (a = VNone \/ (exists l, a = VList l) \/
        b = VNone \/ (exists l, b = VList l)))).
Proof.
  unfold Functionality.High.add_numbers. split.
  - intros v.
    destruct (Builtins.py_float a) as [x|]; cbn [and_then]; [|discriminate].
    destruct (Builtins.py_float b) as [y|]; cbn [and_then]; [|discriminate].
    intros [= <-]. eauto.
  - intros e.
    destruct (Builtins.py_float a) as [x|ea] eqn:Ea; cbn [and_then].
    + destruct (Builtins.py_float b) as [y|eb] eqn:Eb; cbn [and_then];
        [discriminate|].
      intros [= <-]. pose proof (py_float_raises b eb Eb) as H.
      destruct b; try contradiction; subst; eauto 8.
    + intros [= <-]. pose proof (py_float_raises a ea Ea) as H.
      destruct a; try contradiction; subst; eauto 8.
Qed.

(** X9.  When the higher-quality [add_numbers(a, b)] returns a value that
    is not a NaN, [add_numbers(b, a)] returns the same value. *)
Theorem add_numbers_symmetric (a b v : value) :
  Functionality.High.add_numbers a b = Returns v ->
  v <> VFloat S754_nan ->
  Functionality.High.add_numbers b a = Returns v.
Proof.
  unfold Functionality.High.add_numbers.
  destruct (Builtins.py_float a) as [x|]; cbn [and_then]; [|discriminate].
  destruct (Builtins.py_float b) as [y|]; cbn [and_then]; [|discriminate].
  cbn. intros [= <-] Hv. rewrite fadd_comm; [reflexivity | congruence].
Qed.

Lemma add_numbers_symmetric_witness :
  Functionality.High.add_numbers (VStr "3") (VInt 2)
    = Returns (VFloat (S754_finite false 5629499534213120 (-50))).
Proof.
  apply (add_numbers_symmetric (VInt 2) (VStr "3")).
  - vm_compute. reflexivity.
  - discriminate.
Defined.

(** X10.  On arguments that are integers, floats, strings, [None] or lists
    of integers, [calculate_rectangle_area] gives the same outcome when
    width and height are exchanged, unless the area is a NaN; on two
    integers it is their exact product; and [ca] and both versions of
    [multiply] compute the same function. *)
Theorem rectangle_area_symmetric (width height : value) :
  (Readability.High.calculate_rectangle_area width height
     <> Returns (VFloat S754_nan) ->
   Readability.High.calculate_rectangle_area width height
     = Readability.High.calculate_rectangle_area height width) /\
  (forall x y,
      Readability.High.calculate_rectangle_area (VInt x) (VInt y)
        = Returns (VInt (x * y))) /\
  Readability.Low.ca width height
    = Readability.High.calculate_rectangle_area width height /\
  Documentation.Low.multiply width height
    = Readability.High.calculate_rectangle_area width height /\
  Documentation.High.multiply width height
    = Documentation.Low.multiply width height.
Proof.
  split; [intros H; symmetry; apply py_mul_comm; exact H|]. repeat split.
Qed.

(** X11.  On floats and integers below [2**1023] in magnitude, the
    low-quality [divide_numbers(a, b)] raises [ZeroDivisionError] exactly
    when [b] is zero, and returns a float otherwise. *)
Theorem low_divide_numbers_breaks_on_zero (a b : value) :
  Builtins.fits a ->
  Builtins.fits b ->
  (Robustness.Low.divide_numbers a b = Raises ZeroDivisionError <->
   Robustness.zero_divisor b = true) /\
  (Robustness.zero_divisor b = false ->
   exists q, Robustness.Low.divide_numbers a b = Returns (VFloat q)).
Proof.
  intros Ha Hb. unfold Robustness.Low.divide_numbers.
  pose proof (py_truediv_fits a b Ha Hb) as H.
  destruct (Robustness.zero_divisor b).
  - rewrite H. split; [tauto | discriminate].
  - destruct H as [q ->]. split; [|eauto].
    split; discriminate.
Qed.

Lemma low_divide_numbers_breaks_on_zero_witness :
  Builtins.fits (VInt 4) /\
  Builtins.fits (VInt 0) /\
  Robustness.Low.divide_numbers (VInt 4) (VInt 0) = Raises ZeroDivisionError.
Proof.
  assert (H4 : Builtins.fits (VInt 4)) by (cbn; lia).
  assert (H0 : Builtins.fits (VInt 0)) by (cbn; lia).
  split; [exact H4|]. split; [exact H0|].
  apply (proj1 (low_divide_numbers_breaks_on_zero (VInt 4) (VInt 0) H4 H0)).
  reflexivity.
Defined.

(** X12.  On arguments that are integers, floats, strings, [None] or lists
    of integers, the higher-quality [divide_numbers] never lets a
    [ZeroDivisionError] out; it returns [None] exactly when
    the low-quality version raises [ZeroDivisionError], and exactly then it
    prints, one line, the error message; in every other case it prints
    nothing and its outcome is the low-quality version's, a float when it
    is a value. *)
Theorem divide_numbers_none_means_zero_division
  (a b : value) (console : list string) :
  let r := fst (Robustness.High.divide_numbers a b console) in
  let out := snd (Robustness.High.divide_numbers a b console) in
  r <> Raises ZeroDivisionError /\
  (r = Returns VNone <->
   Robustness.Low.divide_numbers a b = Raises ZeroDivisionError) /\
  (r = Returns VNone <-> out = console ++ [Robustness.High.message]) /\
  (r <> Returns VNone ->
   out = console /\ r = Robustness.Low.divide_numbers a b /\
   forall v, r = Returns v -> exists q, v = VFloat q).
Proof.
  unfold Robustness.High.divide_numbers, Robustness.Low.divide_numbers.
  assert (Hne : console <> console ++ [Robustness.High.message]).
  { intros E. apply (f_equal (@length string)) in E.
    rewrite length_app in E. cbn in E. lia. }
  destruct (Builtins.py_truediv a b) as [v|e] eqn:E.
  - destruct (py_truediv_float _ _ _ E) as [q ->]. cbn.
    split; [discriminate|]. split; [split; discriminate|].
    split; [split; [discriminate | intros H; contradiction]|].
    intros _. split; [reflexivity|]. split; [reflexivity|].
    intros v [= <-]. eauto.
  - destruct e; cbn;
      try (split; [discriminate|]; split; [split; discriminate|];
           split; [split; [discriminate | intros H; contradiction]|];
           intros _; split; [reflexivity|]; split; [reflexivity|];
           intros v; discriminate).
    split; [discriminate|]. split; [tauto|]. split; [tauto|].
    intros H. contradiction.
Qed.

(** ** Reusability and Testability *)

Section GreetingFacts.

Lemma list_ascii_of_string_app (s t : string) :
  list_ascii_of_string (s ++ t)%string
  = list_ascii_of_string s ++ list_ascii_of_string t.
Proof.
  induction s as [|c s IH]; [reflexivity|].
  change (String c s ++ t)%string with (String c (s ++ t)%string).
  cbn [list_ascii_of_string]. rewrite IH. reflexivity.
Qed.

Lemma string_app_inv_tail (s1 s2 t : string) :
  (s1 ++ t)%string = (s2 ++ t)%string -> s1 = s2.
Proof.
  intros E. apply (f_equal list_ascii_of_string) in E.
  rewrite !list_ascii_of_string_app in E. apply List.app_inv_tail in E.
  apply (f_equal string_of_list_ascii) in E.
  rewrite !string_of_list_ascii_of_string in E. exact E.
Qed.

(** Stripping a text that starts and ends with a visible character and is
    followed by one newline gives the text back. *)
Lemma strip_line (c1 c2 : ascii) (mid : list ascii) :
  Builtins.is_str_space c1 = false ->
  Builtins.is_str_space c2 = false ->
  rev (Builtins.str_lstrip (rev (Builtins.str_lstrip
        ((c1 :: mid ++ [c2]) ++ ["010"%char]))))
  = c1 :: mid ++ [c2].
Proof.
  intros H1 H2.
  change ((c1 :: mid ++ [c2]) ++ ["010"%char])
    with (c1 :: ((mid ++ [c2]) ++ ["010"%char])).
  cbn [Builtins.str_lstrip]. rewrite H1.
  change (c1 :: ((mid ++ [c2]) ++ ["010"%char]))
    with (((c1 :: mid) ++ [c2]) ++ ["010"%char]).
  rewrite !List.rev_app_distr.
  cbn [rev app Builtins.str_lstrip].
  replace (Builtins.is_str_space "010") with true by reflexivity.
  rewrite H2.
  change (c2 :: rev mid ++ [c1]) with ([c2] ++ rev (c1 :: mid)).
  rewrite List.rev_app_distr, List.rev_involutive. reflexivity.
Qed.

End GreetingFacts.

(** X13.  The generalised [greet] of the reusability section never
    reproduces what [greet_alice()] returns, whatever the name, because it
    leaves out the comma; the [greet] of the testability section returns
    that same text for the name "Alice" and for no other name. *)
Theorem greet_alice_is_not_generalised (name : string) :
  Reusability.High.greet name <> Reusability.Low.greet_alice /\
  (Testability.High.greet name = Reusability.Low.greet_alice <->
   name = "Alice"%string).
Proof.
  split.
  - intros E. apply (f_equal (String.get 5)) in E. discriminate E.
  - split.
    + intros E. unfold Testability.High.greet, Reusability.Low.greet_alice in E.
      cbn in E. injection E as E.
      apply (string_app_inv_tail name "Alice" "!" E).
    + intros ->. reflexivity.
Qed.

(** X14.  The low-quality [greet] of the testability section returns
    [None] and prints one line, the text the higher-quality [greet]
    returns; captured with its newline and stripped, as [test_greet(capsys)]
    does, that line is again exactly the greeting, for every name, so the
    test passes. *)
Theorem printed_greeting_survives_capture
  (name : string) (console : list string) :
  Testability.Low.greet name console
    = (Returns VNone, console ++ [Testability.High.greet name]) /\
  Builtins.str_strip
    (Testability.Low.captured_out (snd (Testability.Low.greet name [])))
    = Testability.High.greet name /\
  Testability.Low.test_greet = Returns VNone.
Proof.
  split; [reflexivity|]. split; [|reflexivity].
  unfold Testability.Low.greet, Builtins.print, Testability.Low.captured_out.
  cbn [snd app map String.concat].
  unfold Builtins.str_strip.
  rewrite list_ascii_of_string_app.
  change (list_ascii_of_string (String "010" EmptyString))
    with ["010"%char].
  unfold Testability.High.greet.
  change ("Hello, " ++ name ++ "!")%string
    with (String "H" ("ello, " ++ name ++ "!"))%string.
  cbn [list_ascii_of_string].
  rewrite !list_ascii_of_string_app.
  change (list_ascii_of_string "!") with ["!"%char].
  rewrite List.app_assoc.
  rewrite (strip_line "H" "!") by reflexivity.
  rewrite <- List.app_assoc.
  change ["!"%char] with (list_ascii_of_string "!").
  rewrite <- !list_ascii_of_string_app.
  change ("H"%char :: list_ascii_of_string ("ello, " ++ name ++ "!")%string)
    with (list_ascii_of_string (String "H" ("ello, " ++ name ++ "!"))%string).
  apply string_of_list_ascii_of_string.
Qed.
